(** * backtester: an event-driven trading simulator

    A shallow embedding of the accounting and scheduling core of the
    [backtester] package: the event model ([event.py]), the price handler
    ([price_handler/base.py], [price_handler/pandas.py]), the simulated
    execution handler ([execution_handler/simulator.py]), the portfolio
    ([portfolio.py], [portfolio_handler.py]) and the session loop
    ([trading_session.py]).

    Conventions of the embedding.
    - Python numbers (prices, quantities, cash) are exact rationals [Q];
      rounding of binary floating point is not modelled.
    - Timestamps are integers [Z] (seconds).
    - A Python call that can raise returns a [result]; a method that mutates
      its receiver and can raise half-way returns an [outcome], which keeps
      the state reached when the exception left the method.
    - [self.tickers] is a [gmap] from ticker names to the per-ticker entry;
      [self.positions] is an insertion-ordered association list, because the
      portfolio iterates over it and may stop half-way. *)

From Stdlib Require Import QArith Qminmax Qabs Lqa ZArith Lia List Permutation Sorted.
From stdpp Require Import base option strings pretty gmap.
Import ListNotations.

Local Open Scope Q_scope.

(** ** Exceptions and results *)

Inductive PyError : Type :=
| TypeError
| KeyError
| AttributeError
| ValueError
| InvalidQuantity
| InvalidAction.

Inductive result (A : Type) : Type :=
| Ok (a : A)
| Raise (e : PyError).
Arguments Ok {A} a.
Arguments Raise {A} e.

Definition bind {A B : Type} (m : result A) (f : A -> result B) : result B :=
  match m with
  | Ok a => f a
  | Raise e => Raise e
  end.

Notation "'let*' x ':=' m 'in' k" := (bind m (fun x => k))
  (at level 10, x pattern, m at level 100, k at level 200).

(** State left behind by a mutating method: either it returned, or it raised
    and the receiver keeps whatever had been written so far. *)
Inductive outcome (S : Type) : Type :=
| Returned (s : S)
| Raised (e : PyError) (s : S).
Arguments Returned {S} s.
Arguments Raised {S} e s.

Definition state_of {S : Type} (o : outcome S) : S :=
  match o with
  | Returned s => s
  | Raised _ s => s
  end.

Definition returned {S : Type} (o : outcome S) : bool :=
  match o with
  | Returned _ => true
  | Raised _ _ => false
  end.

(** ** Events ([event.py]) *)

Inductive EventType : Type := NAN | BAR | TICK | ORDER | FILL | EOD.

(** The five event classes; each constructor stores the arguments of the
    class's [__init__] in order.  [BarEvent.period_readable] is a display
    label derived from [period] and is left out. *)
Inductive Event : Type :=
| EODEvent (time : Z)
| TickEvent (ticker : string) (time : Z) (bid ask : Q)
| BarEvent (ticker : string) (time : Z) (period : Z)
    (open_price high_price low_price close_price volume : Q)
| OrderEvent (ticker : string) (action : string) (quantity : Q)
| FillEvent (timestamp : option Z) (ticker : string) (action : string)
    (quantity : Q) (exchange : string) (price : Q) (commission : Q).

Definition event_type (e : Event) : EventType :=
  match e with
  | EODEvent _ => EOD
  | TickEvent _ _ _ _ => TICK
  | BarEvent _ _ _ _ _ _ _ _ => BAR
  | OrderEvent _ _ _ => ORDER
  | FillEvent _ _ _ _ _ _ _ => FILL
  end.

(** [OrderEvent.__init__]: four assignments, no check on [action]. *)
Definition OrderEvent_init (ticker action : string) (quantity : Q)
  : result Event :=
  Ok (OrderEvent ticker action quantity).

(** [FillEvent.__init__]: eight assignments, no check on [action]. *)
Definition FillEvent_init (timestamp : option Z) (ticker action : string)
    (quantity : Q) (exchange : string) (price commission : Q)
  : result Event :=
  Ok (FillEvent timestamp ticker action quantity exchange price commission).

(** ** Price handler ([price_handler/base.py]) *)

(** One entry of [self.tickers]: the inner dictionary only ever holds the
    keys "close", "timestamp", "bid" and "ask"; [None] is an absent key. *)
Record TickerInfo : Type := mkTickerInfo {
  ti_close : option Q;
  ti_timestamp : option Z;
  ti_bid : option Q;
  ti_ask : option Q
}.

(** [dict()] *)
Definition empty_info : TickerInfo := mkTickerInfo None None None None.

Definition has_key (k : string) (d : TickerInfo) : bool :=
  if decide (k = "close")%string then bool_decide (is_Some (ti_close d))
  else if decide (k = "timestamp")%string then bool_decide (is_Some (ti_timestamp d))
  else if decide (k = "bid")%string then bool_decide (is_Some (ti_bid d))
  else if decide (k = "ask")%string then bool_decide (is_Some (ti_ask d))
  else false.

(** The operands that occur in the guard of [get_best_bid_ask]. *)
Inductive PyVal : Type :=
| VStr (s : string)
| VBool (b : bool)
| VDict (d : TickerInfo).

(** Python's binary [&]: defined on two booleans; a [dict] has no [__and__]
    and a [str] no [__rand__], so every other pair here is a [TypeError]. *)
Definition py_bitand (a b : PyVal) : result PyVal :=
  match a, b with
  | VBool x, VBool y => Ok (VBool (x && y))
  | _, _ => Raise TypeError
  end.

(** Python's [a in b] on these operands: key membership for a dictionary. *)
Definition py_in (a b : PyVal) : result bool :=
  match a, b with
  | VStr k, VDict d => Ok (has_key k d)
  | _, _ => Raise TypeError
  end.

(** [PriceHandler.get_last_timestamp] *)
Definition PriceHandler_get_last_timestamp
    (tickers : gmap string TickerInfo) (ticker : string) : result (option Z) :=
  match tickers !! ticker with
  | Some d =>
      match ti_timestamp d with
      | Some t => Ok (Some t)
      | None => Raise KeyError
      end
  | None => Ok None
  end.

(** [PriceHandler.get_best_bid_ask].  [&] binds tighter than [in], so the
    guard
      ["bid" in self.tickers[ticker] & "ask" in self.tickers[ticker]]
    is the chained comparison
      ["bid" in (self.tickers[ticker] & "ask") in self.tickers[ticker]]
    whose middle operand is evaluated first and once. *)
Definition PriceHandler_get_best_bid_ask
    (tickers : gmap string TickerInfo) (ticker : string)
  : result (option Q * option Q) :=
  match tickers !! ticker with
  | Some d =>
      let* mid := py_bitand (VDict d) (VStr "ask") in
      let* c1 := py_in (VStr "bid") mid in
      let* c2 := (if c1 then py_in mid (VDict d) else Ok false) in
      if (c2 : bool) then
        match ti_bid d, ti_ask d with
        | Some b, Some a => Ok (Some b, Some a)
        | _, _ => Raise KeyError
        end
      else Ok (None, None)
  | None => Ok (None, None)
  end.

(** [PriceHandler.get_last_close] *)
Definition PriceHandler_get_last_close
    (tickers : gmap string TickerInfo) (ticker : string) : result (option Q) :=
  match tickers !! ticker with
  | Some d =>
      match ti_close d with
      | Some c => Ok (Some c)
      | None => Ok None
      end
  | None => Ok None
  end.

(** The interface a concrete price handler presents.  A subclass supplies
    the abstract methods ([istick], [isbar], [stream_next],
    [continue_backtest]) and inherits, or overrides, the three lookups.
    The events queue is shared with the session, so [stream_next] takes it
    and gives it back. *)
Class PriceHandler (H : Type) : Type := {
  istick : H -> bool;
  isbar : H -> bool;
  continue_backtest : H -> bool;
  stream_next : H -> list Event -> outcome (H * list Event);
  get_last_timestamp : H -> string -> result (option Z);
  get_best_bid_ask : H -> string -> result (option Q * option Q);
  get_last_close : H -> string -> result (option Q)
}.

(** ** The bar price handler ([price_handler/pandas.py]) *)

(** [self.data]: per ticker, the rows (index, close_price) of its frame, in
    subscription order. *)
Record OHLCVPriceHandler : Type := mkOHLCV {
  cnt_backtest : bool;
  tickers : gmap string TickerInfo;
  data : list (string * list (Z * Q));
  bar_stream : list Event
}.

(** The sort key [lambda x: x.time]; only bar, tick and end-of-day events
    are ever sorted, the other two have no [time] attribute. *)
Definition event_time (e : Event) : Z :=
  match e with
  | EODEvent t => t
  | TickEvent _ t _ _ => t
  | BarEvent _ t _ _ _ _ _ _ => t
  | OrderEvent _ _ _ => 0
  | FillEvent _ _ _ _ _ _ _ => 0
  end.

(** [sorted(events, key=lambda x: x.time)]: a stable sort.  [insert_event]
    puts an event in front of the first one that is not earlier, so events
    with equal times keep their order. *)
Fixpoint insert_event (e : Event) (l : list Event) : list Event :=
  match l with
  | [] => [e]
  | x :: l' =>
      if (event_time e <=? event_time x)%Z then e :: l
      else x :: insert_event e l'
  end.

Fixpoint sorted_by_time (l : list Event) : list Event :=
  match l with
  | [] => []
  | e :: l' => insert_event e (sorted_by_time l')
  end.

(** [df.index.unique()]: first occurrences, in order. *)
Fixpoint unique (seen l : list Z) : list Z :=
  match l with
  | [] => []
  | x :: l' =>
      if bool_decide (x ∈ seen) then unique seen l'
      else x :: unique (x :: seen) l'
  end.

(** [datetime(x.year, x.month, x.day, 23, 59, 59)] for a time [x] counted
    in seconds. *)
Definition end_of_day (x : Z) : Z := (x / 86400 * 86400 + 86399)%Z.

(** [pd.concat(self.data.values())]: the frames one after the other, each
    row tagged with its ticker; nothing to concatenate is a [ValueError]. *)
Definition concat_frames (d : list (string * list (Z * Q)))
  : result (list (Z * Q * string)) :=
  match d with
  | [] => Raise ValueError
  | _ => Ok (flat_map (fun f => map (fun r => (r, fst f)) (snd f)) d)
  end.

(** [OHLCVPriceHandler._merge_sort_ticker_data]: a bar per row, an
    end-of-day event per distinct value of the index
    ([df.index.unique()]), sorted by time. *)
Definition _merge_sort_ticker_data (d : list (string * list (Z * Q)))
  : result (list Event) :=
  let* df := concat_frames d in
  let events :=
    map (fun x : Z * Q * string =>
           let '(index, close_price, ticker_name) := x in
           BarEvent ticker_name index 86400 close_price close_price
             close_price close_price (100000000000000 # 1)) df in
  let events :=
    events ++ map (fun x => EODEvent (end_of_day x))
                  (unique [] (map (fun x : Z * Q * string => fst (fst x)) df)) in
  Ok (sorted_by_time events).

(** [OHLCVPriceHandler._store_event]; the subscript [self.tickers[t]] of an
    unsubscribed ticker is a [KeyError]. *)
Definition OHLCV_store_event (h : OHLCVPriceHandler) (event : Event)
  : outcome OHLCVPriceHandler :=
  match event with
  | BarEvent ticker time _ _ _ _ close_price _ =>
      match tickers h !! ticker with
      | Some d =>
          Returned (mkOHLCV (cnt_backtest h)
                      (<[ticker := mkTickerInfo (Some close_price) (Some time)
                                     (ti_bid d) (ti_ask d)]> (tickers h))
                      (data h) (bar_stream h))
      | None => Raised KeyError h
      end
  | _ => Raised AttributeError h
  end.

(** [OHLCVPriceHandler.stream_next] *)
Definition OHLCV_stream_next (h : OHLCVPriceHandler) (events_queue : list Event)
  : outcome (OHLCVPriceHandler * list Event) :=
  match bar_stream h with
  | [] => Returned (mkOHLCV false (tickers h) (data h) [], events_queue)
  | event :: rest =>
      let h := mkOHLCV (cnt_backtest h) (tickers h) (data h) rest in
      match event_type event with
      | BAR =>
          match OHLCV_store_event h event with
          | Returned h' => Returned (h', events_queue ++ [event])
          | Raised e h' => Raised e (h', events_queue)
          end
      | _ => Returned (h, events_queue ++ [event])
      end
  end.

#[global] Instance OHLCV_handler : PriceHandler OHLCVPriceHandler := {
  istick := fun _ => false;
  isbar := fun _ => true;
  continue_backtest := cnt_backtest;
  stream_next := OHLCV_stream_next;
  get_last_timestamp := fun h => PriceHandler_get_last_timestamp (tickers h);
  get_best_bid_ask := fun h => PriceHandler_get_best_bid_ask (tickers h);
  get_last_close := fun h => PriceHandler_get_last_close (tickers h)
}.

(** ** Simulated execution ([execution_handler/simulator.py]) *)

(** [SimulatedStockExecutionHandler.calculate_commission].  The product
    [0.5 * fill_price] comes first, so a [None] price is a [TypeError]. *)
Definition calculate_commission (quantity : Q) (fill_price : option Q)
  : result Q :=
  match fill_price with
  | Some p => Ok (Qmin (0.5 * p * quantity) (Qmax 1.0 (0.005 * quantity)))
  | None => Raise TypeError
  end.

(** [SimulatedStockExecutionHandler.execute_order]; the result is the
    events queue after the call. *)
Definition execute_order {H : Type} `{PriceHandler H} (price_handler : H)
    (events_queue : list Event) (event : Event) : result (list Event) :=
  match event with
  | OrderEvent ticker action quantity =>
      let* timestamp := get_last_timestamp price_handler ticker in
      let* fill_price :=
        (if istick price_handler then
           let* ba := get_best_bid_ask price_handler ticker in
           if String.eqb action "BOT" then Ok (snd ba) else Ok (fst ba)
         else get_last_close price_handler ticker) in
      let exchange := "Oslo Boers"%string in
      let* commission := calculate_commission quantity fill_price in
      match fill_price with
      | Some p =>
          let* fill_event :=
            FillEvent_init timestamp ticker action quantity exchange p
              commission in
          Ok (events_queue ++ [fill_event])
      | None => Raise TypeError
      end
  | _ => Ok events_queue
  end.

(** ** Positions *)

(** [portfolio.py] imports the class [Position] from [backtester.position],
    reads the attributes below and calls the constructor,
    [transact_shares] and [update_market_value]. *)
Module Position.

(** Modelled from the spec: the attributes of a Position (section 3),
    under the names [portfolio.py] and [strategy/base.py] read them by. *)
Record t : Type := mk {
  ticker : string;
  quantity : Q;
  cost_basis : Q;
  total_commission : Q;
  realised_pnl : Q;
  unrealised_pnl : Q;
  market_value : Q
}.

End Position.

(** The three operations of the class, as the portfolio calls them:
    [Position(action, ticker, init_quantity, init_price, init_commission,
    bid, ask)], [transact_shares(action, quantity, price, commission)] and
    [update_market_value(bid, ask)].  The two methods mutate the receiver. *)
Class PositionOps : Type := {
  Position_new :
    string -> string -> Q -> Q -> Q -> option Q -> option Q -> result Position.t;
  transact_shares :
    Position.t -> string -> Q -> Q -> Q -> outcome Position.t;
  update_market_value :
    Position.t -> option Q -> option Q -> outcome Position.t
}.

Definition Qlt_bool (x y : Q) : bool := negb (Qle_bool y x).

Module SpecPosition.

Import Position.

(** Modelled from the spec: [update_market_value(bid, ask)] of the missing
    class [Position] (section 4.2): a long position is marked to the bid,
    a short one to the ask, and the unrealised PnL becomes
    market value minus cost basis.  A flat position is marked like a
    short one; a [None] price cannot be multiplied ([TypeError]). *)
Definition update_market_value (p : t) (bid ask : option Q) : outcome t :=
  match (if Qlt_bool 0 (quantity p) then bid else ask) with
  | Some price =>
      let mv := quantity p * price in
      Returned (mk (ticker p) (quantity p) (cost_basis p)
                  (total_commission p) (realised_pnl p)
                  (mv - cost_basis p) mv)
  | None => Raised TypeError p
  end.

(** Modelled from the spec: the signed size of a trade of the missing
    class [Position], [+quantity] for a Buy and [-quantity] for a Sell
    (section 4.2); the ledger is defined for these two actions only, any
    other is an [InvalidAction] (section 7). *)
Definition signed (action : string) (quantity : Q) : result Q :=
  if String.eqb action "BOT" then Ok quantity
  else if String.eqb action "SLD" then Ok (- quantity)
  else Raise InvalidAction.

(** Modelled from the spec: [open], the constructor of the missing class
    [Position] (section 4.2): the initial signed quantity is positive for
    a Buy and negative for a Sell, so the quantity given must be positive;
    any other is an [InvalidQuantity] and the constructed value is
    rejected (section 7).  Price and commission are checked by [transact]
    only.  Cost basis quantity times price, the commission recorded,
    realised PnL zero; the bid and ask it is given serve to compute the
    first market value. *)
Definition new (action ticker : string) (init_quantity init_price
    init_commission : Q) (bid ask : option Q) : result t :=
  if negb (Qlt_bool 0 init_quantity) then Raise InvalidQuantity
  else
    let* q := signed action init_quantity in
    match update_market_value
            (mk ticker q (q * init_price) init_commission 0 0 0) bid ask with
    | Returned p => Ok p
    | Raised e _ => Raise e
    end.

(** Modelled from the spec: [transact] of the missing class [Position]
    (section 4.2).  Quantity and price must be positive and the
    commission non-negative ([InvalidQuantity] otherwise).  A trade in the
    direction of the position extends the cost basis; a trade against it
    realises PnL on the part closed at the average cost, and a trade that
    flips the sign opens a fresh cost basis for the residual. *)
Definition transact_shares (p : t) (action : string)
    (quantity price commission : Q) : outcome t :=
  if negb (Qlt_bool 0 quantity && Qlt_bool 0 price && Qle_bool 0 commission)
  then Raised InvalidQuantity p
  else
    match signed action quantity with
    | Raise e => Raised e p
    | Ok delta =>
        let q0 := Position.quantity p in
        let q1 := q0 + delta in
        if Qle_bool 0 (q0 * delta) then
          Returned (mk (ticker p) q1 (cost_basis p + delta * price)
                      (total_commission p + commission) (realised_pnl p)
                      (unrealised_pnl p) (market_value p))
        else
          let avg := cost_basis p / q0 in
          let closed := Qmin (Qabs delta) (Qabs q0) in
          let gain :=
            if Qlt_bool 0 q0 then (price - avg) * closed
            else (avg - price) * closed in
          let basis :=
            if Qle_bool (Qabs delta) (Qabs q0) then avg * q1
            else q1 * price in
          Returned (mk (ticker p) q1 basis
                      (total_commission p + commission)
                      (realised_pnl p + gain)
                      (unrealised_pnl p) (market_value p))
    end.

(** Modelled from the spec: the missing class [Position] as an
    implementation of the operations the portfolio calls. *)
Definition ops : PositionOps :=
  Build_PositionOps new transact_shares update_market_value.

End SpecPosition.

(** ** Portfolio ([portfolio.py]) *)

(** [self.positions]: an insertion-ordered dictionary. *)
Section Dict.

Context {V : Type}.

(** [k in d] *)
Fixpoint dict_mem (k : string) (d : list (string * V)) : bool :=
  match d with
  | [] => false
  | (k', _) :: d' => if String.eqb k k' then true else dict_mem k d'
  end.

(** [d[k]] *)
Fixpoint dict_get (k : string) (d : list (string * V)) : option V :=
  match d with
  | [] => None
  | (k', v) :: d' => if String.eqb k k' then Some v else dict_get k d'
  end.

(** [d[k] = v]: in place for a key that is there, at the end otherwise. *)
Fixpoint dict_set (k : string) (v : V) (d : list (string * V))
  : list (string * V) :=
  match d with
  | [] => [(k, v)]
  | (k', v') :: d' =>
      if String.eqb k k' then (k', v) :: d' else (k', v') :: dict_set k v d'
  end.

(** [d.pop(k)], the dictionary that is left. *)
Fixpoint dict_pop (k : string) (d : list (string * V)) : list (string * V) :=
  match d with
  | [] => []
  | (k', v') :: d' =>
      if String.eqb k k' then d' else (k', v') :: dict_pop k d'
  end.

End Dict.

(** The attributes of a [Portfolio]; [self.price_handler] is a reference to
    the session's price handler, whose current state every method below
    takes as an argument. *)
Record Portfolio : Type := mkPortfolio {
  init_cash : Q;
  equity : Q;
  cur_cash : Q;
  positions : list (string * Position.t);
  closed_positions : list Position.t;
  realised_pnl : Q;
  unrealised_pnl : Q
}.

(** [Portfolio.__init__] *)
Definition Portfolio_init (cash : Q) : Portfolio :=
  mkPortfolio cash cash cash [] [] 0 0.

Section PortfolioMethods.

Context {ops : PositionOps} {H : Type} `{PriceHandler H}.

(** The price lookup that [update_portfolio], [_add_position] and
    [_modify_position] each spell out: best bid and ask from a tick
    handler, the last close for both from a bar handler. *)
Definition bid_ask (price_handler : H) (ticker : string)
  : result (option Q * option Q) :=
  if istick price_handler then get_best_bid_ask price_handler ticker
  else
    let* close_price := get_last_close price_handler ticker in
    Ok (close_price, close_price).

(** The loop of [update_portfolio] over the entries that are left, with
    the running [unrealised_pnl] and [equity].  Positions are revalued in
    place; when a lookup or a revaluation raises, the entries before it
    stay revalued and the rest stay as they were. *)
Fixpoint revalue (price_handler : H) (todo : list (string * Position.t))
    (unrealised eq : Q)
  : list (string * Position.t) * Q * Q * option PyError :=
  match todo with
  | [] => ([], unrealised, eq, None)
  | (ticker, pt) :: rest =>
      match bid_ask price_handler ticker with
      | Raise e => (todo, unrealised, eq, Some e)
      | Ok (bid, ask) =>
          match update_market_value pt bid ask with
          | Raised e pt' => ((ticker, pt') :: rest, unrealised, eq, Some e)
          | Returned pt' =>
              let '(rest', u, e, err) :=
                revalue price_handler rest
                  (unrealised + Position.unrealised_pnl pt')
                  (eq + (Position.market_value pt' - Position.cost_basis pt'
                         + Position.realised_pnl pt')) in
              ((ticker, pt') :: rest', u, e, err)
          end
      end
  end.

(** [Portfolio.update_portfolio] *)
Definition update_portfolio (price_handler : H) (self : Portfolio)
  : outcome Portfolio :=
  let '(ps, u, e, err) :=
    revalue price_handler (positions self) 0
      (realised_pnl self + init_cash self) in
  let self' :=
    mkPortfolio (init_cash self) e (cur_cash self) ps
      (closed_positions self) (realised_pnl self) u in
  match err with
  | None => Returned self'
  | Some x => Raised x self'
  end.

Definition set_positions (self : Portfolio)
    (ps : list (string * Position.t)) : Portfolio :=
  mkPortfolio (init_cash self) (equity self) (cur_cash self) ps
    (closed_positions self) (realised_pnl self) (unrealised_pnl self).

(** [Portfolio._add_position] *)
Definition _add_position (price_handler : H) (self : Portfolio)
    (action ticker : string) (quantity price commission : Q)
  : outcome Portfolio :=
  if negb (dict_mem ticker (positions self)) then
    match bid_ask price_handler ticker with
    | Raise e => Raised e self
    | Ok (bid, ask) =>
        match Position_new action ticker quantity price commission bid ask with
        | Raise e => Raised e self
        | Ok position =>
            update_portfolio price_handler
              (set_positions self (dict_set ticker position (positions self)))
        end
    end
  else Returned self.

(** [Portfolio._modify_position] *)
Definition _modify_position (price_handler : H) (self : Portfolio)
    (action ticker : string) (quantity price commission : Q)
  : outcome Portfolio :=
  match dict_get ticker (positions self) with
  | Some pt =>
      match transact_shares pt action quantity price commission with
      | Raised e pt1 =>
          Raised e (set_positions self (dict_set ticker pt1 (positions self)))
      | Returned pt1 =>
          let self1 :=
            set_positions self (dict_set ticker pt1 (positions self)) in
          match bid_ask price_handler ticker with
          | Raise e => Raised e self1
          | Ok (bid, ask) =>
              match update_market_value pt1 bid ask with
              | Raised e pt2 =>
                  Raised e
                    (set_positions self (dict_set ticker pt2 (positions self)))
              | Returned pt2 =>
                  let self2 :=
                    set_positions self
                      (dict_set ticker pt2 (positions self)) in
                  let self3 :=
                    if Qeq_bool (Position.quantity pt2) 0 then
                      mkPortfolio (init_cash self2) (equity self2)
                        (cur_cash self2) (dict_pop ticker (positions self2))
                        (closed_positions self2 ++ [pt2])
                        (realised_pnl self2 + Position.realised_pnl pt2)
                        (unrealised_pnl self2)
                    else self2 in
                  update_portfolio price_handler self3
              end
          end
      end
  | None => Returned self
  end.

(** [Portfolio.transact_position] *)
Definition transact_position (price_handler : H) (self : Portfolio)
    (action ticker : string) (quantity price commission : Q)
  : outcome Portfolio :=
  let self :=
    if String.eqb action "BOT" then
      mkPortfolio (init_cash self) (equity self)
        (cur_cash self - (quantity * price + commission))
        (positions self) (closed_positions self) (realised_pnl self)
        (unrealised_pnl self)
    else if String.eqb action "SLD" then
      mkPortfolio (init_cash self) (equity self)
        (cur_cash self + (quantity * price - commission))
        (positions self) (closed_positions self) (realised_pnl self)
        (unrealised_pnl self)
    else self in
  if negb (dict_mem ticker (positions self)) then
    _add_position price_handler self action ticker quantity price commission
  else
    _modify_position price_handler self action ticker quantity price
      commission.

End PortfolioMethods.

(** ** Portfolio handler ([portfolio_handler.py]) *)

(** [PortfolioHandler.on_order]: the order goes onto the events queue. *)
Definition on_order (events_queue : list Event) (order_event : Event)
  : list Event :=
  events_queue ++ [order_event].

(** [PortfolioHandler.on_fill], through
    [_convert_fill_to_portfolio_update]; reading [fill_event.action] of an
    event that is not a fill is an [AttributeError] for the two event
    classes without that attribute. *)
Definition on_fill {ops : PositionOps} {H : Type} `{PriceHandler H}
    (price_handler : H) (portfolio : Portfolio) (fill_event : Event)
  : outcome Portfolio :=
  match fill_event with
  | FillEvent _ ticker action quantity _ price commission =>
      transact_position price_handler portfolio action ticker quantity price
        commission
  | _ => Raised AttributeError portfolio
  end.

(** ** Strategy and statistics ([strategy/base.py], [statistics/base.py]) *)

(** The abstract class [Strategy].  A handler sees the event and the
    portfolio, may change the strategy's own state, and puts the events it
    returns on the events queue. *)
Class Strategy (S : Type) : Type := {
  on_bar : S -> Event -> Portfolio -> S * list Event;
  on_tick : S -> Event -> Portfolio -> S * list Event;
  on_eod : S -> Event -> Portfolio -> S * list Event
}.

(** The abstract class [Statistics]: the hook the session loop calls. *)
Class Statistics (T : Type) : Type := {
  update : T -> Z -> Portfolio -> T
}.

(** ** Session loop ([trading_session.py]) *)

Section Session.

Context {ops : PositionOps}.
Context {H : Type} `{PriceHandler H}.
Context {S : Type} `{Strategy S}.
Context {T : Type} `{Statistics T}.

(** The attributes of a backtest session ([live] is [False]);
    [portfolio] is [self.portfolio_handler.portfolio], and [statistics]
    is optional. *)
Record TradingSession : Type := mkSession {
  strategy : S;
  events_queue : list Event;
  price_handler : H;
  portfolio : Portfolio;
  statistics : option T;
  cur_time : Z
}.

(** [TradingSession._continue_loop_condition] of a backtest *)
Definition _continue_loop_condition (s : TradingSession) : bool :=
  continue_backtest (price_handler s).

(** One iteration of the [while] loop of [_run_session]:
    [events_queue.get(False)], then either [stream_next] on an empty
    queue or the dispatch of the event taken. *)
Definition loop_body (s : TradingSession) : outcome TradingSession :=
  match events_queue s with
  | [] =>
      match stream_next (price_handler s) (events_queue s) with
      | Returned (h, q) =>
          Returned (mkSession (strategy s) q h (portfolio s) (statistics s)
                      (cur_time s))
      | Raised e (h, q) =>
          Raised e (mkSession (strategy s) q h (portfolio s) (statistics s)
                      (cur_time s))
      end
  | event :: rest =>
      match event with
      | EODEvent time =>
          let '(st, out) := on_eod (strategy s) event (portfolio s) in
          match update_portfolio (price_handler s) (portfolio s) with
          | Raised e pf =>
              Raised e (mkSession st (rest ++ out) (price_handler s) pf
                          (statistics s) time)
          | Returned pf =>
              match statistics s with
              | Some stats =>
                  Returned (mkSession st (rest ++ out) (price_handler s) pf
                              (Some (update stats time pf)) time)
              | None =>
                  Raised AttributeError
                    (mkSession st (rest ++ out) (price_handler s) pf None time)
              end
          end
      | BarEvent _ time _ _ _ _ _ _ =>
          let '(st, out) := on_bar (strategy s) event (portfolio s) in
          Returned (mkSession st (rest ++ out) (price_handler s) (portfolio s)
                      (statistics s) time)
      | TickEvent _ time _ _ =>
          let '(st, out) := on_tick (strategy s) event (portfolio s) in
          Returned (mkSession st (rest ++ out) (price_handler s) (portfolio s)
                      (statistics s) time)
      | OrderEvent _ _ _ =>
          match execute_order (price_handler s) rest event with
          | Ok q =>
              Returned (mkSession (strategy s) q (price_handler s)
                          (portfolio s) (statistics s) (cur_time s))
          | Raise e =>
              Raised e (mkSession (strategy s) rest (price_handler s)
                          (portfolio s) (statistics s) (cur_time s))
          end
      | FillEvent _ _ _ _ _ _ _ =>
          match on_fill (price_handler s) (portfolio s) event with
          | Returned pf =>
              Returned (mkSession (strategy s) rest (price_handler s) pf
                          (statistics s) (cur_time s))
          | Raised e pf =>
              Raised e (mkSession (strategy s) rest (price_handler s) pf
                          (statistics s) (cur_time s))
          end
      end
  end.

(** What one iteration did to the queue. *)
Inductive step_log : Type :=
| Pulled (put : list Event)
| Dispatched (event : Event) (put : list Event).

Definition log_of (s s' : TradingSession) : step_log :=
  match events_queue s with
  | [] => Pulled (events_queue s')
  | event :: rest =>
      Dispatched event (drop (length rest) (events_queue s'))
  end.

(** [TradingSession._run_session]: at most [fuel] iterations of the
    loop.  The result is the log of the iterations made and the state the
    loop was left in; an exception leaves the loop. *)
Fixpoint _run_session (fuel : nat) (s : TradingSession)
  : list step_log * outcome TradingSession :=
  match fuel with
  | O => ([], Returned s)
  | Datatypes.S n =>
      if _continue_loop_condition s then
        match loop_body s with
        | Returned s' =>
            let '(l, o) := _run_session n s' in (log_of s s' :: l, o)
        | Raised e s' => ([log_of s s'], Raised e s')
        end
      else ([], Returned s)
  end.

(** The events dispatched, in order. *)
Fixpoint dispatched (l : list step_log) : list Event :=
  match l with
  | [] => []
  | Pulled _ :: l' => dispatched l'
  | Dispatched e _ :: l' => e :: dispatched l'
  end.

(** The events put on the queue, in order. *)
Fixpoint enqueued (l : list step_log) : list Event :=
  match l with
  | [] => []
  | Pulled put :: l' => put ++ enqueued l'
  | Dispatched _ put :: l' => put ++ enqueued l'
  end.

End Session.

Arguments TradingSession : clear implicits.

(** The guard as the specification intends it: a logical conjunction of the
    two membership tests. *)
Definition intended_get_best_bid_ask
    (tickers : gmap string TickerInfo) (ticker : string)
  : result (option Q * option Q) :=
  match tickers !! ticker with
  | Some d =>
      if has_key "bid" d && has_key "ask" d then
        match ti_bid d, ti_ask d with
        | Some b, Some a => Ok (Some b, Some a)
        | _, _ => Raise KeyError
        end
      else Ok (None, None)
  | None => Ok (None, None)
  end.

(** ** Further methods *)

(** [BarEvent._readable_period]: the label of a bar's period, from a table
    of thirteen common periods, and the number of seconds otherwise. *)
Definition _readable_period (period : Z) : string :=
  if (period =? 1)%Z then "1sec"
  else if (period =? 5)%Z then "5sec"
  else if (period =? 10)%Z then "10sec"
  else if (period =? 15)%Z then "15sec"
  else if (period =? 30)%Z then "30sec"
  else if (period =? 60)%Z then "1min"
  else if (period =? 300)%Z then "5min"
  else if (period =? 600)%Z then "10min"
  else if (period =? 900)%Z then "15min"
  else if (period =? 1800)%Z then "30min"
  else if (period =? 3600)%Z then "1hr"
  else if (period =? 86400)%Z then "1day"
  else if (period =? 604800)%Z then "1wk"
  else pretty period +:+ "sec".

(** [PriceHandler.unsubscribe_ticker], inherited by the bar handler: both
    [pop] calls have a default, so a ticker that is not there is no error. *)
Definition unsubscribe_ticker (h : OHLCVPriceHandler) (ticker : string)
  : OHLCVPriceHandler :=
  mkOHLCV (cnt_backtest h) (delete ticker (tickers h))
    (dict_pop ticker (data h)) (bar_stream h).

(** [OHLCVPriceHandler.subscribe_tickers].  [read] stands for the reader
    and the reindexing and filling of its frame: the rows of the ticker's
    frame, or [None] when the [try] block ends in the [OSError] that the
    method catches. *)
Definition subscribe_tickers (read : Z -> option (list (Z * Q)))
    (h : OHLCVPriceHandler) (ticker_id : Z) (ticker_name : string)
  : OHLCVPriceHandler :=
  match tickers h !! ticker_name with
  | None =>
      match read ticker_id with
      | Some df =>
          mkOHLCV (cnt_backtest h) (<[ticker_name := empty_info]> (tickers h))
            (dict_set ticker_name df (data h)) (bar_stream h)
      | None => h
      end
  | Some _ => h
  end.

(** [OHLCVPriceHandler.__init__]: the tickers are subscribed in the order
    of [zip(ticker_ids, ticker_names)], then the stream is built. *)
Definition OHLCVPriceHandler_init (read : Z -> option (list (Z * Q)))
    (ticker_ids : list Z) (ticker_names : list string)
  : result OHLCVPriceHandler :=
  let h :=
    fold_left (fun h p => subscribe_tickers read h (fst p) (snd p))
      (combine ticker_ids ticker_names) (mkOHLCV true ∅ [] []) in
  let* stream := _merge_sort_ticker_data (data h) in
  Ok (mkOHLCV (cnt_backtest h) (tickers h) (data h) stream).

(** [n] calls of [stream_next] in a row, up to the first that raises. *)
Fixpoint stream_n (n : nat) (h : OHLCVPriceHandler) (events_queue : list Event)
  : outcome (OHLCVPriceHandler * list Event) :=
  match n with
  | O => Returned (h, events_queue)
  | Datatypes.S n' =>
      match OHLCV_stream_next h events_queue with
      | Returned (h', q') => stream_n n' h' q'
      | Raised e x => Raised e x
      end
  end.

(** [PriceParser.parse] on a number. *)
Definition PriceParser_parse (x : Q) : Q := x.

(** [SimulatedFundExecutionHandler.calculate_commission] *)
Definition Fund_calculate_commission (quantity : Q) (fill_price : option Q)
  : result Q :=
  Ok (PriceParser_parse 0).

(** [SimulatedFundExecutionHandler.execute_order]: the method is inherited,
    and its body names [SimulatedStockExecutionHandler.calculate_commission]
    rather than the method of [self]. *)
Definition Fund_execute_order {H : Type} `{PriceHandler H} (price_handler : H)
    (events_queue : list Event) (event : Event) : result (list Event) :=
  execute_order price_handler events_queue event.

(** [PortfolioOptimizationBaseClass.liquidate_portfolio]: the events queue
    after the call. *)
Definition liquidate_portfolio (pf : Portfolio) (events_queue : list Event)
  : list Event :=
  fold_left
    (fun q kv =>
       let position := snd kv in
       if Qlt_bool 0 (Position.quantity position) then
         q ++ [OrderEvent (Position.ticker position) "SLD"
                 (Qabs (Position.quantity position))]
       else if Qlt_bool (Position.quantity position) 0 then
         q ++ [OrderEvent (Position.ticker position) "BOT"
                 (Qabs (Position.quantity position))]
       else q)
    (positions pf) events_queue.

(** ** Properties stated about the data stream *)

(** The rows of [pd.concat(self.data.values())], each with its ticker. *)
Definition frame_rows (d : list (string * list (Z * Q)))
  : list (Z * Q * string) :=
  flat_map (fun f => map (fun r => (r, fst f)) (snd f)) d.

(** The bar made of a row. *)
Definition bar_of_row (x : Z * Q * string) : Event :=
  let '(index, close_price, ticker_name) := x in
  BarEvent ticker_name index 86400 close_price close_price close_price
    close_price (100000000000000 # 1).

(** The list handed to [sorted]: the bars in row order, then one
    end-of-day event for each distinct index value in order of first
    appearance. *)
Definition stream_input (d : list (string * list (Z * Q))) : list Event :=
  map bar_of_row (frame_rows d)
  ++ map (fun x => EODEvent (end_of_day x))
       (unique [] (map (fun x : Z * Q * string => fst (fst x)) (frame_rows d))).

(** The events of a list that carry the time [k], in order. *)
Definition at_time (k : Z) (l : list Event) : list Event :=
  List.filter (fun e => (event_time e =? k)%Z) l.

(** A bar of a subscribed ticker, or an event that is not a bar. *)
Definition bar_subscribed (tks : gmap string TickerInfo) (e : Event) : Prop :=
  match e with
  | BarEvent ticker _ _ _ _ _ _ _ => is_Some (tks !! ticker)
  | _ => True
  end.

(** What [subscribe_tickers] keeps true of the handler: the names in
    [tickers] are the names in [data], each once, every entry is still
    empty, and each frame came from the reader for an identifier paired
    with its name. *)
Definition subscribed_well (read : Z -> option (list (Z * Q)))
    (pairs : list (Z * string)) (h : OHLCVPriceHandler) : Prop :=
  (forall name, is_Some (tickers h !! name) <-> dict_mem name (data h) = true)
  /\ (forall name d, tickers h !! name = Some d -> d = empty_info)
  /\ NoDup (map fst (data h))
  /\ (forall name df, dict_get name (data h) = Some df ->
        exists id, (id, name) ∈ pairs /\ read id = Some df).

(** The frame [__init__] is to keep under a name: the reader's frame for
    the first pair of [zip(ticker_ids, ticker_names)] with that name whose
    read does not fail; later pairs with the name are turned away. *)
Fixpoint first_frame (read : Z -> option (list (Z * Q)))
    (pairs : list (Z * string)) (name : string) : option (list (Z * Q)) :=
  match pairs with
  | [] => None
  | (id, n) :: rest =>
      if String.eqb name n then
        match read id with
        | Some df => Some df
        | None => first_frame read rest name
        end
      else first_frame read rest name
  end.

(** ** Further properties stated about the portfolio *)

Definition sum_unrealised (ps : list (string * Position.t)) : Q :=
  fold_right (fun kv acc => Position.unrealised_pnl (snd kv) + acc) 0 ps.

(** [kv'] is the entry [kv] after [update_market_value] at the current
    quote of its ticker. *)
Definition revalued {ops : PositionOps} {H : Type} `{PriceHandler H}
    (ph : H) (kv kv' : string * Position.t) : Prop :=
  fst kv' = fst kv
  /\ exists bid ask,
       bid_ask ph (fst kv) = Ok (bid, ask)
       /\ update_market_value (snd kv) bid ask = Returned (snd kv').

(** What a fill adds to the cash. *)
Definition cash_delta (action : string) (quantity price commission : Q) : Q :=
  if String.eqb action "BOT" then - (quantity * price + commission)
  else if String.eqb action "SLD" then quantity * price - commission
  else 0.

(** A position with a quantity other than zero. *)
Definition nonflat (kv : string * Position.t) : bool :=
  negb (Qeq_bool (Position.quantity (snd kv)) 0).

(** [o] is the order that offsets the position [kv]: a Sell of the whole
    quantity of a long position, a Buy of the whole quantity of a short
    one. *)
Definition offsets (kv : string * Position.t) (o : Event) : Prop :=
  exists action n,
    o = OrderEvent (Position.ticker (snd kv)) action n
    /\ 0 < n
    /\ ((0 < Position.quantity (snd kv) /\ action = "SLD"%string
         /\ n == Position.quantity (snd kv))
        \/ (Position.quantity (snd kv) < 0 /\ action = "BOT"%string
            /\ n == - Position.quantity (snd kv))).

(** ** Properties stated about the session loop *)

(** The events taken from the price handler's stream, in order. *)
Fixpoint pulled (l : list step_log) : list Event :=
  match l with
  | [] => []
  | Pulled put :: l' => put ++ pulled l'
  | Dispatched _ _ :: l' => pulled l'
  end.

(** Non-decreasing timestamps. *)
Definition time_le (a b : Event) : Prop := (event_time a <= event_time b)%Z.

(** ** Properties stated about the portfolio *)

(** What one active position adds to the equity. *)
Definition position_value (p : Position.t) : Q :=
  Position.market_value p - Position.cost_basis p + Position.realised_pnl p.

Definition sum_values (ps : list (string * Position.t)) : Q :=
  fold_right (fun kv acc => position_value (snd kv) + acc) 0 ps.

(** The equity invariant of section 3. *)
Definition equity_invariant (pf : Portfolio) : Prop :=
  equity pf == init_cash pf + realised_pnl pf + sum_values (positions pf).


(** The transaction data of the active positions: ticker, quantity and cost
    basis of each, in order. *)
Definition entry_data (kv : string * Position.t) : string * Q * Q :=
  (fst kv, Position.quantity (snd kv), Position.cost_basis (snd kv)).

Definition ledger (pf : Portfolio) : list (string * Q * Q) :=
  map entry_data (positions pf).

(** ** States used in the examples *)

(** A handler whose only ticker stores a bid and an ask. *)
Definition quoted_tickers : gmap string TickerInfo :=
  {[ "GOOG"%string := mkTickerInfo None None (Some 99) (Some 101) ]}.

(** A bar handler that has seen one bar of its only ticker. *)
Definition goog_handler : OHLCVPriceHandler :=
  mkOHLCV true
    {[ "GOOG"%string := mkTickerInfo (Some 100) (Some 1%Z) None None ]} []
    [BarEvent "GOOG" 2 86400 110 110 110 110 1].

(** A strategy that never trades, and statistics that record nothing. *)
#[global] Instance idle_strategy : Strategy unit := {
  on_bar := fun st _ _ => (st, []);
  on_tick := fun st _ _ => (st, []);
  on_eod := fun st _ _ => (st, [])
}.

#[global] Instance no_statistics : Statistics unit := {
  update := fun st _ _ => st
}.

(** A session on [goog_handler] with 100000 in cash and the given queue. *)
Definition goog_session (queue : list Event)
  : TradingSession OHLCVPriceHandler unit unit :=
  mkSession tt queue goog_handler (Portfolio_init 100000) (Some tt) 1.

(** The portfolio after buying 10 "GOOG" at 100 with commission 5, seen
    through [goog_handler]. *)
Definition long_goog : Portfolio :=
  Eval vm_compute in
    state_of (transact_position (ops := SpecPosition.ops) goog_handler
                (Portfolio_init 100000) "BOT" "GOOG" 10 100 5).

(** [goog_handler] after a bar that closed at 110. *)
Definition goog_handler_110 : OHLCVPriceHandler :=
  mkOHLCV true
    {[ "GOOG"%string := mkTickerInfo (Some 110) (Some 2%Z) None None ]} [] [].

(** [long_goog] after selling the 10 shares at 110 with commission 5. *)
Definition closed_goog : Portfolio :=
  Eval vm_compute in
    state_of (transact_position (ops := SpecPosition.ops) goog_handler_110
                long_goog "SLD" "GOOG" 10 110 5).

(** A strategy that buys 10 shares of the ticker of the first bar it sees;
    its state records whether it has done so. *)
#[global] Instance one_order_strategy : Strategy bool := {
  on_bar := fun fired event _ =>
    match event with
    | BarEvent ticker _ _ _ _ _ _ _ =>
        if fired then (true, []) else (true, [OrderEvent ticker "BOT" 10])
    | _ => (fired, [])
    end;
  on_tick := fun fired _ _ => (fired, []);
  on_eod := fun fired _ _ => (fired, [])
}.

(** A session about to read a stream of two bars, at t=1 and at t=2. *)
Definition two_bar_session : TradingSession OHLCVPriceHandler bool unit :=
  mkSession false []
    (mkOHLCV true {[ "GOOG"%string := empty_info ]} []
       [BarEvent "GOOG" 1 86400 100 100 100 100 1;
        BarEvent "GOOG" 2 86400 110 110 110 110 1])
    (Portfolio_init 100000) (Some tt) 0.

(** The frames of two tickers over two days. *)
Definition two_ticker_data : list (string * list (Z * Q)) :=
  [("AAA"%string, [(0%Z, 1); (86400%Z, 2)]);
   ("BBB"%string, [(0%Z, 3); (86400%Z, 4)])].

(** A reader that knows the identifiers 1 and 2. *)
Definition two_ticker_read (ticker_id : Z) : option (list (Z * Q)) :=
  if (ticker_id =? 1)%Z then Some [(0%Z, 1); (86400%Z, 2)]
  else if (ticker_id =? 2)%Z then Some [(0%Z, 3); (86400%Z, 4)]
  else None.

(** [long_goog] revalued after the bar that closed at 110. *)
Definition long_goog_110 : Portfolio :=
  Eval vm_compute in
    state_of (update_portfolio (ops := SpecPosition.ops) goog_handler_110
                long_goog).

(** A session without statistics whose next event is an end-of-day event. *)
Definition no_statistics_session : TradingSession OHLCVPriceHandler unit unit :=
  mkSession tt [EODEvent 86399] goog_handler (Portfolio_init 100000) None 1.

(** ** Theorems *)


(** *** The price handler *)

Lemma get_best_bid_ask_subscribed (tks : gmap string TickerInfo)
    (ticker : string) (d : TickerInfo) :
  tks !! ticker = Some d ->
  PriceHandler_get_best_bid_ask tks ticker = Raise TypeError.
Proof.
  intros Hd. unfold PriceHandler_get_best_bid_ask. rewrite Hd. reflexivity.
Qed.

Lemma intended_bid_ask_stored (tks : gmap string TickerInfo)
    (ticker : string) (d : TickerInfo) (b a : Q) :
  tks !! ticker = Some d -> ti_bid d = Some b -> ti_ask d = Some a ->
  intended_get_best_bid_ask tks ticker = Ok (Some b, Some a).
Proof.
  intros Hd Hb Ha. unfold intended_get_best_bid_ask, has_key.
  rewrite Hd, Hb, Ha. reflexivity.
Qed.

(** C9 (defect of the code).  For a ticker whose entry stores both a bid and
    an ask, [get_best_bid_ask] should return the stored pair.  On the
    handler [quoted_tickers] the guard evaluates [dict & str] and the call
    raises [TypeError], where the guard written with a logical conjunction
    returns the stored pair (99, 101). *)
Theorem get_best_bid_ask_raises_on_stored_quote :
  quoted_tickers !! "GOOG"%string
    = Some (mkTickerInfo None None (Some 99) (Some 101))
  /\ PriceHandler_get_best_bid_ask quoted_tickers "GOOG" = Raise TypeError
  /\ intended_get_best_bid_ask quoted_tickers "GOOG" = Ok (Some 99, Some 101).
Proof.
  assert (Hd : quoted_tickers !! "GOOG"%string
               = Some (mkTickerInfo None None (Some 99) (Some 101)))
    by (unfold quoted_tickers; apply lookup_singleton_eq).
  split; [exact Hd|]. split.
  - exact (get_best_bid_ask_subscribed _ _ _ Hd).
  - exact (intended_bid_ask_stored _ _ _ _ _ Hd eq_refl eq_refl).
Qed.

(** *** Events *)

(** C7 (as amended).  Constructing an Order or a Fill event checks nothing:
    for every action value the construction succeeds and the event stores
    the action it was given. *)
Theorem event_construction_accepts_any_action (timestamp : option Z)
    (ticker action exchange : string) (quantity price commission : Q) :
  OrderEvent_init ticker action quantity
    = Ok (OrderEvent ticker action quantity)
  /\ FillEvent_init timestamp ticker action quantity exchange price commission
    = Ok (FillEvent timestamp ticker action quantity exchange price commission).
Proof. split; reflexivity. Qed.

(** C7 (counterexample).  The action "XYZ" is neither "BOT" nor "SLD", and
    both constructors succeed on it instead of failing with
    [InvalidAction]. *)
Lemma event_construction_xyz_succeeds :
  "XYZ"%string <> "BOT"%string /\ "XYZ"%string <> "SLD"%string
  /\ OrderEvent_init "GOOG" "XYZ" 10 <> Raise InvalidAction
  /\ OrderEvent_init "GOOG" "XYZ" 10 = Ok (OrderEvent "GOOG" "XYZ" 10)
  /\ FillEvent_init (Some 1%Z) "GOOG" "XYZ" 10 "Oslo Boers" 100 1
     <> Raise InvalidAction.
Proof. repeat split; discriminate. Qed.

(** *** Simulated execution *)

(** C6.  An order whose ticker has a timestamp and a price yields exactly
    one Fill, put at the tail of the queue: at the ask for a Buy and at the
    bid for a Sell when the handler is a tick handler that returns bid and
    ask, at the last close when it is a bar handler; the commission is
    min(0.5 * price * quantity, max(1.0, 0.005 * quantity)). *)
Theorem execute_order_enqueues_one_fill {H : Type} `{PriceHandler H}
    (ph : H) (queue : list Event) (ticker action : string) (quantity : Q)
    (timestamp : option Z) (p : Q) :
  get_last_timestamp ph ticker = Ok timestamp ->
  (istick ph = true /\ action = "BOT"%string
     /\ (exists bid, get_best_bid_ask ph ticker = Ok (bid, Some p)))
  \/ (istick ph = true /\ action = "SLD"%string
     /\ (exists ask, get_best_bid_ask ph ticker = Ok (Some p, ask)))
  \/ (istick ph = false /\ get_last_close ph ticker = Ok (Some p)) ->
  execute_order ph queue (OrderEvent ticker action quantity)
  = Ok (queue ++ [FillEvent timestamp ticker action quantity "Oslo Boers" p
                    (Qmin (0.5 * p * quantity) (Qmax 1.0 (0.005 * quantity)))]).
Proof.
  intros Hts Hprice. unfold execute_order. rewrite Hts. cbn [bind].
  destruct Hprice as [(Ht & -> & bid & Hq) | [(Ht & -> & ask & Hq) | (Ht & Hc)]];
    rewrite Ht.
  - rewrite Hq. reflexivity.
  - rewrite Hq. reflexivity.
  - rewrite Hc. reflexivity.
Qed.

Lemma execute_order_enqueues_one_fill_witness :
  execute_order goog_handler [] (OrderEvent "GOOG" "BOT" 10)
  = Ok [FillEvent (Some 1%Z) "GOOG" "BOT" 10 "Oslo Boers" 100
          (Qmin (0.5 * 100 * 10) (Qmax 1.0 (0.005 * 10)))].
Proof.
  apply (execute_order_enqueues_one_fill goog_handler [] "GOOG" "BOT" 10
           (Some 1%Z) 100).
  - reflexivity.
  - right. right. split; reflexivity.
Defined.

(** An order for a ticker the bar handler does not know: the close price is
    [None] and the commission cannot be computed. *)
Lemma execute_order_unsubscribed (h : OHLCVPriceHandler)
    (queue : list Event) (ticker action : string) (quantity : Q) :
  tickers h !! ticker = None ->
  execute_order h queue (OrderEvent ticker action quantity) = Raise TypeError.
Proof.
  intros Hn. unfold execute_order. cbn.
  unfold PriceHandler_get_last_timestamp, PriceHandler_get_last_close.
  rewrite Hn. reflexivity.
Qed.

(** C5 (defect of the code).  An order for a ticker without a price should
    be dropped and the session should go on.  On [goog_handler], which does
    not know "MSFT", no Fill is produced and the cash stays at 100000, but
    [execute_order] raises [TypeError]; nothing in the loop catches it, so
    the session ends there with its data stream unread. *)
Theorem unsubscribed_order_aborts_session :
  tickers goog_handler !! "MSFT"%string = None
  /\ execute_order goog_handler [] (OrderEvent "MSFT" "BOT" 10)
     = Raise TypeError
  /\ _run_session (ops := SpecPosition.ops) 5
       (goog_session [OrderEvent "MSFT" "BOT" 10])
     = ([Dispatched (OrderEvent "MSFT" "BOT" 10) []],
        Raised TypeError (goog_session []))
  /\ cur_cash (portfolio (goog_session [])) = 100000
  /\ bar_stream (price_handler (goog_session [])) <> [].
Proof.
  assert (Hn : tickers goog_handler !! "MSFT"%string = None)
    by (apply lookup_singleton_ne; discriminate).
  split; [exact Hn|]. split; [exact (execute_order_unsubscribed _ _ _ _ _ Hn)|].
  split; [|split; [reflexivity|discriminate]].
  vm_compute. reflexivity.
Qed.

(** *** The positions dictionary *)

Section DictFacts.

Context {V : Type}.
Implicit Types (k : string) (d : list (string * V)).

Lemma dict_mem_get k d : dict_mem k d = true <-> is_Some (dict_get k d).
Proof.
  induction d as [|[k' v] d IH]; cbn.
  - split; [discriminate | intros [x Hx]; discriminate].
  - destruct (String.eqb k k'); [|exact IH].
    split; [eexists; reflexivity | reflexivity].
Qed.

Lemma dict_mem_false_get k d : dict_mem k d = false <-> dict_get k d = None.
Proof.
  induction d as [|[k' v] d IH]; cbn.
  - split; reflexivity.
  - destruct (String.eqb k k'); [|exact IH].
    split; discriminate.
Qed.

Lemma dict_get_pop_eq k d :
  NoDup (map fst d) -> dict_get k (dict_pop k d) = None.
Proof.
  induction d as [|[k' v] d IH]; cbn; [reflexivity|].
  intros Hnd. apply NoDup_cons in Hnd as [Hk Hnd].
  destruct (String.eqb k k') eqn:E.
  - apply String.eqb_eq in E. subst k'.
    apply dict_mem_false_get. destruct (dict_mem k d) eqn:Em; [|reflexivity].
    exfalso. apply Hk. clear -Em.
    induction d as [|[k2 v2] d IH]; cbn in *; [discriminate|].
    destruct (String.eqb k k2) eqn:E2.
    + apply String.eqb_eq in E2. subst. apply list_elem_of_here.
    + apply list_elem_of_further. auto.
  - cbn. rewrite E. auto.
Qed.

Lemma dict_set_keys k v d :
  dict_mem k d = true -> map fst (dict_set k v d) = map fst d.
Proof.
  induction d as [|[k' v'] d IH]; cbn; [discriminate|].
  destruct (String.eqb k k'); cbn; [reflexivity|].
  intros Hm. f_equal. auto.
Qed.

Lemma dict_set_keys_new k v d :
  dict_mem k d = false -> map fst (dict_set k v d) = map fst d ++ [k].
Proof.
  induction d as [|[k' v'] d IH]; cbn; [reflexivity|].
  destruct (String.eqb k k'); cbn; [discriminate|].
  intros Hm. f_equal. auto.
Qed.



Lemma dict_pop_keys_NoDup k d :
  NoDup (map fst d) -> NoDup (map fst (dict_pop k d)).
Proof.
  induction d as [|[k' v'] d IH]; cbn; [auto|].
  intros Hnd. apply NoDup_cons in Hnd as [Hk Hnd].
  destruct (String.eqb k k'); [exact Hnd|].
  cbn. apply NoDup_cons. split; [|auto].
  intros Hin. apply Hk. clear -Hin.
  induction d as [|[k2 v2] d IH]; cbn in *; [exact Hin|].
  destruct (String.eqb k k2).
  - apply list_elem_of_further. exact Hin.
  - apply elem_of_cons in Hin as [->|Hin];
      [apply list_elem_of_here | apply list_elem_of_further; auto].
Qed.



End DictFacts.

(** *** Revaluation *)

Section PortfolioFacts.

Context {ops : PositionOps} {H : Type} `{PriceHandler H}.

Lemma revalue_keys (ph : H) (l : list (string * Position.t)) u e l' u' e' err :
  revalue ph l u e = (l', u', e', err) -> map fst l' = map fst l.
Proof.
  revert u e l' u' e' err.
  induction l as [|[t pt] l IH]; intros u e l' u' e' err; cbn [revalue].
  - intros [= <- _ _ _]. reflexivity.
  - destruct (bid_ask ph t) as [[bid ask]|x].
    + destruct (update_market_value pt bid ask) as [pt'|x pt'].
      * destruct (revalue ph l _ _) as [[[r1 u1] e1] err1] eqn:E.
        intros [= <- _ _ _]. cbn. f_equal. exact (IH _ _ _ _ _ _ E).
      * intros [= <- _ _ _]. reflexivity.
    + intros [= <- _ _ _]. reflexivity.
Qed.

(** When the loop runs to its end, the equity it accumulated is the
    start value plus the value of every position as it now stands. *)
Lemma revalue_equity (ph : H) (l : list (string * Position.t)) u e l' u' e' :
  revalue ph l u e = (l', u', e', None) -> e' == e + sum_values l'.
Proof.
  revert u e l' u' e'.
  induction l as [|[t pt] l IH]; intros u e l' u' e'; cbn [revalue].
  - intros [= <- _ <-]. unfold sum_values. cbn [fold_right]. ring.
  - destruct (bid_ask ph t) as [[bid ask]|x]; [|discriminate].
    destruct (update_market_value pt bid ask) as [pt'|x pt']; [|discriminate].
    destruct (revalue ph l _ _) as [[[r1 u1] e1] err1] eqn:E.
    intros [= <- _ <- ->]. apply IH in E. rewrite E.
    unfold sum_values. cbn [fold_right snd]. unfold position_value. ring.
Qed.

Lemma update_portfolio_frame (ph : H) (pf : Portfolio) :
  let pf' := state_of (update_portfolio ph pf) in
  cur_cash pf' = cur_cash pf /\ init_cash pf' = init_cash pf
  /\ realised_pnl pf' = realised_pnl pf
  /\ closed_positions pf' = closed_positions pf
  /\ map fst (positions pf') = map fst (positions pf).
Proof.
  unfold update_portfolio.
  destruct (revalue ph (positions pf) _ _) as [[[ps u] e] err] eqn:E.
  apply revalue_keys in E.
  destruct err; cbn; repeat split; auto.
Qed.

Lemma update_portfolio_invariant (ph : H) (pf : Portfolio) pf' :
  update_portfolio ph pf = Returned pf' -> equity_invariant pf'.
Proof.
  unfold update_portfolio.
  destruct (revalue ph (positions pf) _ _) as [[[ps u] e] err] eqn:E.
  destruct err; [discriminate|]. intros [= <-].
  apply revalue_equity in E. unfold equity_invariant.
  cbn [equity init_cash realised_pnl positions]. rewrite E. ring.
Qed.

(** *** Transactions *)

Lemma add_position_cash (ph : H) (pf : Portfolio) action ticker q p c :
  cur_cash (state_of (_add_position ph pf action ticker q p c))
  = cur_cash pf.
Proof.
  unfold _add_position.
  destruct (negb (dict_mem ticker (positions pf))); [|reflexivity].
  destruct (bid_ask ph ticker) as [[bid ask]|x]; [|reflexivity].
  destruct (Position_new _ _ _ _ _ _ _) as [pos|x]; [|reflexivity].
  apply (update_portfolio_frame ph (set_positions pf _)).
Qed.

Lemma modify_position_cash (ph : H) (pf : Portfolio) action ticker q p c :
  cur_cash (state_of (_modify_position ph pf action ticker q p c))
  = cur_cash pf.
Proof.
  unfold _modify_position.
  destruct (dict_get ticker (positions pf)) as [pt|]; [|reflexivity].
  destruct (transact_shares pt action q p c) as [pt1|x pt1]; [|reflexivity].
  destruct (bid_ask ph ticker) as [[bid ask]|x]; [|reflexivity].
  destruct (update_market_value pt1 bid ask) as [pt2|x pt2]; [|reflexivity].
  match goal with
  | |- cur_cash (state_of (update_portfolio ph ?s)) = _ =>
      rewrite (proj1 (update_portfolio_frame ph s))
  end.
  destruct (Qeq_bool (Position.quantity pt2) 0); reflexivity.
Qed.

Lemma add_position_invariant (ph : H) (pf : Portfolio) action ticker q p c pf' :
  dict_mem ticker (positions pf) = false ->
  _add_position ph pf action ticker q p c = Returned pf' ->
  equity_invariant pf'.
Proof.
  unfold _add_position. intros ->. cbn [negb].
  destruct (bid_ask ph ticker) as [[bid ask]|x]; [|discriminate].
  destruct (Position_new _ _ _ _ _ _ _) as [pos|x]; [|discriminate].
  apply update_portfolio_invariant.
Qed.

Lemma modify_position_invariant (ph : H) (pf : Portfolio) action ticker q p c pf' :
  dict_mem ticker (positions pf) = true ->
  _modify_position ph pf action ticker q p c = Returned pf' ->
  equity_invariant pf'.
Proof.
  unfold _modify_position. intros Hm.
  apply dict_mem_get in Hm as [pt ->].
  destruct (transact_shares pt action q p c) as [pt1|x pt1]; [|discriminate].
  destruct (bid_ask ph ticker) as [[bid ask]|x]; [|discriminate].
  destruct (update_market_value pt1 bid ask) as [pt2|x pt2]; [|discriminate].
  apply update_portfolio_invariant.
Qed.

End PortfolioFacts.

Section PortfolioTheorems.

Context {ops : PositionOps} {H : Type} `{PriceHandler H}.

(** C1.  In whatever state the portfolio is, when [transact_position] or
    [update_portfolio] returns, the equity equals the initial cash plus
    the portfolio's realised PnL plus the sum over the active positions of
    market value - cost basis + realised PnL.  The price handler, the
    action, the ticker and the amounts are arbitrary, so the invariant
    holds after every call of any interleaving of transactions. *)
Theorem equity_invariant_after_call (ph : H) (pf pf' : Portfolio)
    (action ticker : string) (q p c : Q) :
  transact_position ph pf action ticker q p c = Returned pf'
  \/ update_portfolio ph pf = Returned pf' ->
  equity_invariant pf'.
Proof.
  intros [Ht | Hu]; [|exact (update_portfolio_invariant ph pf pf' Hu)].
  unfold transact_position in Ht.
  match type of Ht with
  | context [dict_mem ticker (positions ?s)] =>
      destruct (dict_mem ticker (positions s)) eqn:Em; cbn [negb] in Ht
  end.
  - exact (modify_position_invariant ph _ _ _ _ _ _ _ Em Ht).
  - exact (add_position_invariant ph _ _ _ _ _ _ _ Em Ht).
Qed.

(** C2.  A Buy lowers the cash by exactly q*p + c and a Sell raises it by
    exactly q*p - c, whether the call returns or raises; adding a
    position, modifying one and revaluing the portfolio leave the cash
    as it is. *)
Theorem transact_position_cash (ph : H) (pf : Portfolio)
    (action ticker : string) (q p c : Q) :
  cur_cash (state_of (transact_position ph pf "BOT" ticker q p c))
  = cur_cash pf - (q * p + c)
  /\ cur_cash (state_of (transact_position ph pf "SLD" ticker q p c))
     = cur_cash pf + (q * p - c)
  /\ cur_cash (state_of (_add_position ph pf action ticker q p c))
     = cur_cash pf
  /\ cur_cash (state_of (_modify_position ph pf action ticker q p c))
     = cur_cash pf
  /\ cur_cash (state_of (update_portfolio ph pf)) = cur_cash pf.
Proof.
  split; [|split; [|split; [|split]]].
  - unfold transact_position. cbn [String.eqb Ascii.eqb Bool.eqb].
    match goal with
    | |- context [dict_mem ticker (positions ?s)] =>
        destruct (negb (dict_mem ticker (positions s)))
    end.
    + rewrite add_position_cash. reflexivity.
    + rewrite modify_position_cash. reflexivity.
  - unfold transact_position. cbn [String.eqb Ascii.eqb Bool.eqb].
    match goal with
    | |- context [dict_mem ticker (positions ?s)] =>
        destruct (negb (dict_mem ticker (positions s)))
    end.
    + rewrite add_position_cash. reflexivity.
    + rewrite modify_position_cash. reflexivity.
  - apply add_position_cash.
  - apply modify_position_cash.
  - apply (update_portfolio_frame ph pf).
Qed.

(** C10.  With an action other than "BOT" and "SLD" the cash is left as it
    was, and the call is the add-position path for a ticker without an
    active position and the modify-position path for a ticker with one. *)
Theorem transact_position_other_action (ph : H) (pf : Portfolio)
    (action ticker : string) (q p c : Q) :
  action <> "BOT"%string -> action <> "SLD"%string ->
  cur_cash (state_of (transact_position ph pf action ticker q p c))
  = cur_cash pf
  /\ transact_position ph pf action ticker q p c
     = if dict_mem ticker (positions pf)
       then _modify_position ph pf action ticker q p c
       else _add_position ph pf action ticker q p c.
Proof.
  intros Hb Hs. unfold transact_position.
  apply String.eqb_neq in Hb, Hs. rewrite Hb, Hs.
  destruct (dict_mem ticker (positions pf)); cbn [negb]; split;
    auto using add_position_cash, modify_position_cash.
Qed.

End PortfolioTheorems.

Lemma equity_invariant_after_call_witness : equity_invariant long_goog.
Proof.
  apply (equity_invariant_after_call (ops := SpecPosition.ops) goog_handler
           (Portfolio_init 100000) long_goog "BOT" "GOOG" 10 100 5).
  left. reflexivity.
Defined.

Lemma transact_position_other_action_witness :
  cur_cash (state_of (transact_position (ops := SpecPosition.ops) goog_handler
                        long_goog "XYZ" "GOOG" 10 100 5))
  = cur_cash long_goog
  /\ transact_position (ops := SpecPosition.ops) goog_handler long_goog
       "XYZ" "GOOG" 10 100 5
     = if dict_mem "GOOG" (positions long_goog)
       then _modify_position (ops := SpecPosition.ops) goog_handler long_goog
              "XYZ" "GOOG" 10 100 5
       else _add_position (ops := SpecPosition.ops) goog_handler long_goog
              "XYZ" "GOOG" 10 100 5.
Proof.
  apply (transact_position_other_action (ops := SpecPosition.ops)
           goog_handler long_goog "XYZ" "GOOG" 10 100 5); discriminate.
Defined.

(** *** The position ledger of the specification *)

Section SpecPositionFacts.

Import Position.

Lemma spec_update_returned (pt pt' : Position.t) (bid ask : option Q) :
  SpecPosition.update_market_value pt bid ask = Returned pt' ->
  quantity pt' = quantity pt /\ cost_basis pt' = cost_basis pt
  /\ ticker pt' = ticker pt /\ realised_pnl pt' = realised_pnl pt
  /\ SpecPosition.update_market_value pt' bid ask = Returned pt'.
Proof.
  unfold SpecPosition.update_market_value.
  destruct (if Qlt_bool 0 (quantity pt) then bid else ask) as [price|] eqn:E;
    [|discriminate].
  intros [= <-]. cbn [quantity cost_basis ticker realised_pnl].
  rewrite E. repeat split; reflexivity.
Qed.

Lemma spec_update_raised (pt pt' : Position.t) (bid ask : option Q)
    (e : PyError) :
  SpecPosition.update_market_value pt bid ask = Raised e pt' -> pt' = pt.
Proof.
  unfold SpecPosition.update_market_value.
  destruct (if Qlt_bool 0 (quantity pt) then bid else ask); [discriminate|].
  intros [= _ <-]. reflexivity.
Qed.

Lemma Qlt_bool_iff (x y : Q) : Qlt_bool x y = true <-> x < y.
Proof.
  unfold Qlt_bool. rewrite negb_true_iff. split.
  - intros Hf. apply Qnot_le_lt. intros Hle.
    apply Qle_bool_iff in Hle. congruence.
  - intros Hlt. destruct (Qle_bool y x) eqn:E; [|reflexivity].
    apply Qle_bool_iff in E. exfalso. exact (Qlt_not_le _ _ Hlt E).
Qed.



End SpecPositionFacts.

(** *** The portfolio over the ledger of the specification *)

Section SpecPortfolio.

Context {H : Type} `{PriceHandler H}.

#[local] Existing Instance SpecPosition.ops.

Lemma revalue_data (ph : H) (l : list (string * Position.t)) u e l' u' e' err :
  revalue ph l u e = (l', u', e', err) ->
  map entry_data l' = map entry_data l.
Proof.
  revert u e l' u' e' err.
  induction l as [|[t pt] l IH]; intros u e l' u' e' err; cbn [revalue].
  - intros [= <- _ _ _]. reflexivity.
  - destruct (bid_ask ph t) as [[bid ask]|x].
    + cbn [update_market_value SpecPosition.ops].
      destruct (SpecPosition.update_market_value pt bid ask)
        as [pt'|x pt'] eqn:Eu.
      * destruct (revalue ph l _ _) as [[[r1 u1] e1] err1] eqn:E.
        intros [= <- _ _ _]. apply IH in E.
        apply spec_update_returned in Eu as (Hq & Hc & _).
        cbn [map]. rewrite E. unfold entry_data at 1 3.
        cbn [fst snd]. rewrite Hq, Hc. reflexivity.
      * intros [= <- _ _ _]. apply spec_update_raised in Eu. subst pt'.
        reflexivity.
    + intros [= <- _ _ _]. reflexivity.
Qed.

(** Running the loop again over its own result changes nothing. *)
Lemma revalue_again (ph : H) (l : list (string * Position.t)) u e l' u' e' err :
  revalue ph l u e = (l', u', e', err) ->
  revalue ph l' u e = (l', u', e', err).
Proof.
  revert u e l' u' e' err.
  induction l as [|[t pt] l IH]; intros u e l' u' e' err; cbn [revalue].
  - intros [= <- <- <- <-]. reflexivity.
  - destruct (bid_ask ph t) as [[bid ask]|x] eqn:Eb.
    + cbn [update_market_value SpecPosition.ops].
      destruct (SpecPosition.update_market_value pt bid ask)
        as [pt'|x pt'] eqn:Eu.
      * destruct (revalue ph l _ _) as [[[r1 u1] e1] err1] eqn:E.
        intros [= <- <- <- <-]. apply IH in E.
        apply spec_update_returned in Eu as (_ & _ & _ & _ & Hi).
        cbn [revalue]. rewrite Eb.
        cbn [update_market_value SpecPosition.ops]. rewrite Hi, E.
        reflexivity.
      * intros [= <- <- <- <-].
        pose proof (spec_update_raised _ _ _ _ _ Eu) as ->.
        cbn [revalue]. rewrite Eb.
        cbn [update_market_value SpecPosition.ops]. rewrite Eu.
        reflexivity.
    + intros [= <- <- <- <-]. cbn [revalue]. rewrite Eb. reflexivity.
Qed.

Lemma update_portfolio_ledger (ph : H) (pf : Portfolio) :
  ledger (state_of (update_portfolio ph pf)) = ledger pf.
Proof.
  unfold update_portfolio, ledger.
  destruct (revalue ph (positions pf) _ _) as [[[ps u] e] err] eqn:E.
  apply revalue_data in E. destruct err; exact E.
Qed.

(** C8.  Revaluing the portfolio a second time against the same prices
    gives the state, and the outcome, of the first revaluation; a
    revaluation changes neither the cash nor the tickers, quantities and
    cost bases of the active positions.  The ledger is the one of the
    specification. *)
Theorem update_portfolio_idempotent (ph : H) (pf : Portfolio) :
  update_portfolio ph (state_of (update_portfolio ph pf))
  = update_portfolio ph pf
  /\ cur_cash (state_of (update_portfolio ph pf)) = cur_cash pf
  /\ ledger (state_of (update_portfolio ph pf)) = ledger pf.
Proof.
  split; [|split].
  - unfold update_portfolio.
    destruct (revalue ph (positions pf) _ _) as [[[ps u] e] err] eqn:E.
    apply revalue_again in E.
    destruct err; cbn [state_of positions realised_pnl init_cash cur_cash
                       closed_positions]; rewrite E; reflexivity.
  - apply (update_portfolio_frame ph pf).
  - apply update_portfolio_ledger.
Qed.







End SpecPortfolio.


(** *** The data stream *)

Lemma insert_event_Forall (P : Event -> Prop) (e : Event) (l : list Event) :
  P e -> Forall P l -> Forall P (insert_event e l).
Proof.
  intros He. induction 1 as [|x l Hx Hl IH]; cbn [insert_event].
  - repeat constructor. exact He.
  - destruct (event_time e <=? event_time x)%Z; repeat constructor; auto.
Qed.

Lemma insert_event_sorted (e : Event) (l : list Event) :
  StronglySorted time_le l -> StronglySorted time_le (insert_event e l).
Proof.
  induction 1 as [|x l Hs IH Hx]; cbn [insert_event].
  - repeat constructor.
  - destruct (event_time e <=? event_time x)%Z eqn:E.
    + apply Z.leb_le in E. constructor; [constructor; assumption|].
      constructor; [exact E|].
      eapply Forall_impl; [exact Hx|]. unfold time_le. cbn. intros; lia.
    + apply Z.leb_gt in E. constructor; [exact IH|].
      apply insert_event_Forall; [unfold time_le; lia | exact Hx].
Qed.

Lemma sorted_by_time_sorted (l : list Event) :
  StronglySorted time_le (sorted_by_time l).
Proof.
  induction l as [|e l IH]; cbn [sorted_by_time];
    [constructor | apply insert_event_sorted, IH].
Qed.

Lemma insert_event_perm (e : Event) (l : list Event) :
  Permutation (e :: l) (insert_event e l).
Proof.
  induction l as [|x l IH]; cbn [insert_event]; [reflexivity|].
  destruct (event_time e <=? event_time x)%Z; [reflexivity|].
  rewrite perm_swap. constructor. exact IH.
Qed.

Lemma sorted_by_time_perm (l : list Event) :
  Permutation l (sorted_by_time l).
Proof.
  induction l as [|e l IH]; cbn [sorted_by_time]; [reflexivity|].
  rewrite <- insert_event_perm. constructor. exact IH.
Qed.

Lemma merge_sort_ticker_data_sorted (d : list (string * list (Z * Q)))
    (evs : list Event) :
  _merge_sort_ticker_data d = Ok evs -> StronglySorted time_le evs.
Proof.
  unfold _merge_sort_ticker_data, bind.
  destruct (concat_frames d) as [df|x]; [|discriminate].
  intros [= <-]. apply sorted_by_time_sorted.
Qed.

Lemma sorted_prefix (l1 l2 : list Event) :
  StronglySorted time_le (l1 ++ l2) -> StronglySorted time_le l1.
Proof.
  induction l1 as [|x l1 IH]; cbn; [constructor|].
  intros Hs. apply StronglySorted_inv in Hs as [Hs Hx].
  constructor; [auto|]. apply Forall_app in Hx as [Hx _]. exact Hx.
Qed.

(** *** The session loop *)

Lemma enqueued_app (a b : list step_log) :
  enqueued (a ++ b) = enqueued a ++ enqueued b.
Proof.
  induction a as [|[put|e put] a IHa]; cbn;
    rewrite ?IHa, ?app_assoc; reflexivity.
Qed.

Lemma dispatched_app (a b : list step_log) :
  dispatched (a ++ b) = dispatched a ++ dispatched b.
Proof.
  induction a as [|[put|e put] a IHa]; cbn; rewrite ?IHa; reflexivity.
Qed.

Lemma pulled_app (a b : list step_log) :
  pulled (a ++ b) = pulled a ++ pulled b.
Proof.
  induction a as [|[put|e put] a IHa]; cbn;
    rewrite ?IHa, ?app_assoc; reflexivity.
Qed.

Section SessionFacts.

Context {ops : PositionOps}.
Context {H : Type} `{PriceHandler H}.
Context {S : Type} `{Strategy S}.
Context {T : Type} `{Statistics T}.

Abbreviation session := (TradingSession H S T).

Lemma execute_order_appends (ph : H) (q q' : list Event) (ev : Event) :
  execute_order ph q ev = Ok q' -> exists put, q' = q ++ put.
Proof.
  destruct ev; cbn [execute_order];
    try (intros [= <-]; exists []; symmetry; apply app_nil_r).
  unfold bind, FillEvent_init.
  destruct (get_last_timestamp ph ticker); [|discriminate].
  destruct (if istick ph then _ else _) as [fp|]; [|discriminate].
  destruct (calculate_commission quantity fp); [|discriminate].
  destruct fp; [|discriminate].
  intros [= <-]. eexists. reflexivity.
Qed.

(** A dispatch takes the head of the queue, leaves the rest in order,
    puts what it produces behind it, and does not touch the price
    handler. *)
Lemma loop_body_dispatch (s : session) (event : Event) (rest : list Event) :
  events_queue s = event :: rest ->
  (exists put, events_queue (state_of (loop_body s)) = rest ++ put)
  /\ price_handler (state_of (loop_body s)) = price_handler s.
Proof.
  intros Hq. unfold loop_body. rewrite Hq.
  assert (Hnil : rest = rest ++ []) by (symmetry; apply app_nil_r).
  destruct event.
  - destruct (on_eod _ _ _) as [st out].
    destruct (update_portfolio _ _) as [pf|x pf];
      [destruct (statistics s)|]; cbn; eauto.
  - destruct (on_tick _ _ _) as [st out]. cbn. eauto.
  - destruct (on_bar _ _ _) as [st out]. cbn. eauto.
  - destruct (execute_order _ _ _) as [q|x] eqn:E; cbn; [|eauto].
    apply execute_order_appends in E. auto.
  - destruct (on_fill _ _ _) as [pf|x pf]; cbn; eauto.
Qed.

Lemma log_of_step (s : session) :
  let s' := state_of (loop_body s) in
  events_queue s ++ enqueued [log_of s s']
  = dispatched [log_of s s'] ++ events_queue s'.
Proof.
  cbn zeta. unfold log_of.
  destruct (events_queue s) as [|event rest] eqn:Hq; cbn.
  - apply app_nil_r.
  - destruct (loop_body_dispatch s event rest Hq) as [[put Hp] _].
    rewrite Hp, drop_app_length, app_nil_r. reflexivity.
Qed.

Lemma run_unfold (n : nat) (s : session) :
  _continue_loop_condition s = true ->
  _run_session (Datatypes.S n) s
  = match loop_body s with
    | Returned s' =>
        (log_of s s' :: fst (_run_session n s'), snd (_run_session n s'))
    | Raised e s' => ([log_of s s'], Raised e s')
    end.
Proof.
  intros Hc. cbn [_run_session]. rewrite Hc.
  destruct (loop_body s) as [s'|x s']; [|reflexivity].
  destruct (_run_session n s'); reflexivity.
Qed.

(** The queue is first in, first out: over any number of iterations, the
    events dispatched followed by the events still queued are the events
    queued at the start followed by the events put on the queue, both in
    order. *)
Lemma run_fifo (n : nat) (s : session) :
  events_queue s ++ enqueued (fst (_run_session n s))
  = dispatched (fst (_run_session n s))
    ++ events_queue (state_of (snd (_run_session n s))).
Proof.
  revert s. induction n as [|n IH]; intros s.
  - cbn. rewrite app_nil_r. reflexivity.
  - destruct (_continue_loop_condition s) eqn:Hc.
    + rewrite (run_unfold n s Hc).
      pose proof (log_of_step s) as Hs. cbn zeta in Hs.
      destruct (loop_body s) as [s'|x s']; cbn [state_of fst snd] in *.
      * change (log_of s s' :: ?l) with ([log_of s s'] ++ l).
        rewrite enqueued_app, dispatched_app, app_assoc, Hs, <- !app_assoc.
        f_equal. apply IH.
      * exact Hs.
    + cbn [_run_session]. rewrite Hc. cbn. rewrite app_nil_r. reflexivity.
Qed.

(** The price handler's stream is read only when the queue is empty:
    whatever was queued or put on the queue before an event is pulled
    has been dispatched before it. *)
Lemma run_pull_on_empty (n : nat) (s : session)
    (l1 l2 : list step_log) (put : list Event) :
  fst (_run_session n s) = l1 ++ Pulled put :: l2 ->
  events_queue s ++ enqueued l1 = dispatched l1.
Proof.
  revert s l1. induction n as [|n IH]; intros s l1.
  - cbn. destruct l1; discriminate.
  - destruct (_continue_loop_condition s) eqn:Hc.
    + rewrite (run_unfold n s Hc).
      pose proof (log_of_step s) as Hs. cbn zeta in Hs.
      destruct (loop_body s) as [s'|x s']; cbn [state_of fst snd] in *.
      * destruct l1 as [|x l1]; cbn [app].
        -- intros [= Hl _]. unfold log_of in Hl.
           destruct (events_queue s); [reflexivity|discriminate].
        -- intros [= <- Hl]. apply IH in Hl.
           change (log_of s s' :: l1) with ([log_of s s'] ++ l1).
           rewrite enqueued_app, dispatched_app, app_assoc, Hs,
             <- app_assoc, Hl.
           reflexivity.
      * destruct l1 as [|y l1]; cbn [app].
        -- intros [= Hl _]. unfold log_of in Hl.
           destruct (events_queue s); [reflexivity|discriminate].
        -- intros [= _ Hl]. destruct l1; discriminate.
    + cbn [_run_session]. rewrite Hc. cbn. destruct l1; discriminate.
Qed.

End SessionFacts.

Lemma OHLCV_store_event_stream (h h' : OHLCVPriceHandler) (e : Event) :
  OHLCV_store_event h e = Returned h' ->
  bar_stream h' = bar_stream h /\ cnt_backtest h' = cnt_backtest h.
Proof.
  unfold OHLCV_store_event. destruct e; try discriminate.
  destruct (tickers h !! ticker); [|discriminate].
  intros [= <-]. split; reflexivity.
Qed.

Lemma OHLCV_stream_next_cases (h : OHLCVPriceHandler) (q : list Event) :
  match OHLCV_stream_next h q with
  | Returned (h', q') =>
      (bar_stream h = [] /\ q' = q /\ bar_stream h' = [])
      \/ (exists e, bar_stream h = e :: bar_stream h' /\ q' = q ++ [e])
  | Raised _ (_, q') => q' = q
  end.
Proof.
  unfold OHLCV_stream_next. destruct (bar_stream h) as [|e r] eqn:Hs.
  - left. auto.
  - destruct (event_type e); try (right; exists e; auto).
    destruct (OHLCV_store_event _ e) as [h'|x h'] eqn:E; [|reflexivity].
    apply OHLCV_store_event_stream in E as [E _]. cbn in E.
    right. exists e. rewrite E. auto.
Qed.

Section OHLCVSession.

Context {ops : PositionOps}.
Context {S : Type} `{Strategy S}.
Context {T : Type} `{Statistics T}.

Abbreviation bar_session := (TradingSession OHLCVPriceHandler S T).

(** The events pulled over any number of iterations are an initial part
    of the handler's stream, in the order of the stream. *)
Lemma run_pulled_prefix (n : nat) (s : bar_session) :
  exists rest,
    bar_stream (price_handler s) = pulled (fst (_run_session n s)) ++ rest.
Proof.
  revert s. induction n as [|n IH]; intros s; [cbn; eauto|].
  destruct (_continue_loop_condition s) eqn:Hc;
    [|cbn [_run_session]; rewrite Hc; cbn; eauto].
  rewrite (run_unfold n s Hc).
  destruct (events_queue s) as [|event rest] eqn:Hq.
  - unfold loop_body, log_of. rewrite Hq. cbn [stream_next OHLCV_handler].
    pose proof (OHLCV_stream_next_cases (price_handler s) []) as Hn.
    destruct (OHLCV_stream_next (price_handler s) [])
      as [[h' q']|x [h' q']]; cbn [fst snd events_queue pulled].
    + match goal with
      | |- context [_run_session n ?s'] => destruct (IH s') as [rest Hr]
      end.
      cbn [price_handler] in Hr.
      destruct Hn as [(Hs & -> & Hs') | (e & Hs & ->)].
      * rewrite Hs' in Hr. rewrite Hs. exists rest. exact Hr.
      * rewrite Hs, Hr. exists rest. reflexivity.
    + subst q'. cbn. eauto.
  - destruct (loop_body_dispatch s event rest Hq) as [_ Hp].
    unfold log_of. rewrite Hq.
    destruct (loop_body s) as [s'|x s']; cbn [state_of fst pulled] in *.
    + rewrite <- Hp. apply IH.
    + cbn. eauto.
Qed.

(** From a state with an empty queue, whatever is dispatched first is
    the head of the stream. *)
Lemma run_dispatches_stream_head (n : nat) (s : bar_session) (e : Event)
    (r : list Event) :
  events_queue s = [] -> bar_stream (price_handler s) = e :: r ->
  dispatched (fst (_run_session n s)) = []
  \/ exists tail, dispatched (fst (_run_session n s)) = e :: tail.
Proof.
  intros Hq Hs. destruct n as [|n]; [left; reflexivity|].
  destruct (_continue_loop_condition s) eqn:Hc;
    [|cbn [_run_session]; rewrite Hc; left; reflexivity].
  rewrite (run_unfold n s Hc). unfold loop_body, log_of. rewrite Hq.
  cbn [stream_next OHLCV_handler].
  pose proof (OHLCV_stream_next_cases (price_handler s) []) as Hn.
  destruct (OHLCV_stream_next (price_handler s) [])
    as [[h' q']|x [h' q']]; cbn [fst snd events_queue dispatched];
    [|left; reflexivity].
  destruct Hn as [(Hs' & _) | (e' & Hs' & ->)]; [congruence|].
  rewrite Hs in Hs'. injection Hs' as <- _.
  destruct n as [|n]; [left; reflexivity|].
  match goal with
  | |- context [_run_session _ ?s'] => set (s1 := s')
  end.
  destruct (_continue_loop_condition s1) eqn:Hc1;
    [|cbn [_run_session]; rewrite Hc1; left; reflexivity].
  rewrite (run_unfold n s1 Hc1). right.
  destruct (loop_body s1) as [s2|x s2]; cbn [fst]; unfold log_of;
    cbn [events_queue s1 app dispatched]; eauto.
Qed.

Lemma one_order_scenario (n : nat) (s : bar_session) (d : TickerInfo)
    (st1 : S) (tk tk2 action : string) (period period2 : Z)
    (o1 h1 l1 c1 v1 o2 h2 l2 c2 v2 q : Q) :
  let bar1 := BarEvent tk 1 period o1 h1 l1 c1 v1 in
  let bar2 := BarEvent tk2 2 period2 o2 h2 l2 c2 v2 in
  let order := OrderEvent tk action q in
  let fill :=
    FillEvent (Some 1%Z) tk action q "Oslo Boers" c1
      (Qmin (0.5 * c1 * q) (Qmax 1.0 (0.005 * q))) in
  events_queue s = [] ->
  cnt_backtest (price_handler s) = true ->
  bar_stream (price_handler s) = [bar1; bar2] ->
  tickers (price_handler s) !! tk = Some d ->
  on_bar (strategy s) bar1 (portfolio s) = (st1, [order]) ->
  exists tail,
    dispatched (fst (_run_session (4 + n) s)) = bar1 :: order :: fill :: tail
    /\ (tail = [] \/ exists tail', tail = bar2 :: tail').
Proof.
  intros bar1 bar2 order fill Hq Hc Hs Htk Hbar.
  destruct s as [st q0 h pf stats ct]. cbn in Hq, Hc, Hs, Htk, Hbar.
  destruct h as [cnt tks dat strm]. cbn in Hc, Hs, Htk. subst q0 cnt strm.
  (* the first bar is pulled *)
  change (4 + n)%nat with (Datatypes.S (3 + n)).
  rewrite run_unfold by reflexivity.
  unfold loop_body at 1, log_of at 1.
  cbn -[lookup insert _run_session Qmin Qmax Qmult].
  rewrite Htk.
  cbn -[lookup insert _run_session Qmin Qmax Qmult].
  (* and dispatched to the strategy, which puts its order *)
  rewrite run_unfold by reflexivity.
  unfold loop_body at 1, log_of at 1.
  cbn -[lookup insert _run_session Qmin Qmax Qmult].
  fold bar1. rewrite Hbar.
  cbn -[lookup insert _run_session Qmin Qmax Qmult].
  (* the order is executed at the close of the first bar *)
  rewrite run_unfold by reflexivity.
  unfold loop_body at 1, log_of at 1.
  cbn -[lookup insert _run_session Qmin Qmax Qmult].
  unfold PriceHandler_get_last_timestamp, PriceHandler_get_last_close.
  rewrite lookup_insert_eq.
  cbn -[lookup insert _run_session Qmin Qmax Qmult].
  (* the fill is dispatched; only then is the stream read again *)
  rewrite run_unfold by reflexivity.
  unfold loop_body at 1, log_of at 1.
  cbn -[lookup insert _run_session Qmin Qmax Qmult transact_position].
  destruct (transact_position _ pf action tk q c1 _) as [pf'|x pf'];
    cbn -[lookup insert _run_session Qmin Qmax Qmult].
  - match goal with
    | |- context [_run_session n ?s'] =>
        destruct (run_dispatches_stream_head n s' bar2 [] eq_refl eq_refl)
          as [-> | [tail ->]]
    end.
    + exists []. split; [reflexivity | left; reflexivity].
    + exists (bar2 :: tail). split; [reflexivity | right; eauto].
  - exists []. split; [reflexivity | left; reflexivity].
Qed.

(** C4.  The session loop dispatches in strict queue order.  Over any
    number of iterations the events dispatched, followed by those still
    queued, are the events queued at the start followed by the events put
    on the queue, in that order; an event is taken from the stream only
    when everything queued or put before has been dispatched.  The
    stream built by [_merge_sort_ticker_data] has non-decreasing
    timestamps, and the events taken from a stream so ordered are so
    ordered.  In particular, with a stream of a Bar at t=1 and a Bar at
    t=2 and a strategy that puts one Order on the first Bar, the
    dispatch order is Bar, Order, Fill, and the Bar at t=2 comes, if
    at all, right after the Fill. *)
Theorem session_dispatch_order (n : nat) (s : bar_session) :
  (events_queue s ++ enqueued (fst (_run_session n s))
   = dispatched (fst (_run_session n s))
     ++ events_queue (state_of (snd (_run_session n s))))
  /\ (forall l1 put l2,
        fst (_run_session n s) = l1 ++ Pulled put :: l2 ->
        events_queue s ++ enqueued l1 = dispatched l1)
  /\ (forall d evs,
        _merge_sort_ticker_data d = Ok evs -> StronglySorted time_le evs)
  /\ (StronglySorted time_le (bar_stream (price_handler s)) ->
      StronglySorted time_le (pulled (fst (_run_session n s))))
  /\ (forall (d : TickerInfo) (st1 : S) (tk tk2 action : string)
             (period period2 : Z) (o1 h1 l1 c1 v1 o2 h2 l2 c2 v2 q : Q),
        let bar1 := BarEvent tk 1 period o1 h1 l1 c1 v1 in
        let bar2 := BarEvent tk2 2 period2 o2 h2 l2 c2 v2 in
        let order := OrderEvent tk action q in
        let fill :=
          FillEvent (Some 1%Z) tk action q "Oslo Boers" c1
            (Qmin (0.5 * c1 * q) (Qmax 1.0 (0.005 * q))) in
        events_queue s = [] ->
        cnt_backtest (price_handler s) = true ->
        bar_stream (price_handler s) = [bar1; bar2] ->
        tickers (price_handler s) !! tk = Some d ->
        on_bar (strategy s) bar1 (portfolio s) = (st1, [order]) ->
        exists tail,
          dispatched (fst (_run_session (4 + n) s))
          = bar1 :: order :: fill :: tail
          /\ (tail = [] \/ exists tail', tail = bar2 :: tail')).
Proof.
  split; [apply run_fifo|].
  split; [intros l1 put l2; apply run_pull_on_empty|].
  split; [apply merge_sort_ticker_data_sorted|].
  split.
  - intros Hs. destruct (run_pulled_prefix n s) as [rest Hr].
    rewrite Hr in Hs. exact (sorted_prefix _ _ Hs).
  - intros d st1 tk tk2 action period period2 o1 h1 l1 c1 v1 o2 h2 l2 c2 v2 q.
    apply one_order_scenario.
Qed.

End OHLCVSession.

Lemma session_dispatch_order_witness :
  exists tail,
    dispatched (fst (_run_session (ops := SpecPosition.ops) 6 two_bar_session))
    = BarEvent "GOOG" 1 86400 100 100 100 100 1
      :: OrderEvent "GOOG" "BOT" 10
      :: FillEvent (Some 1%Z) "GOOG" "BOT" 10 "Oslo Boers" 100
           (Qmin (0.5 * 100 * 10) (Qmax 1.0 (0.005 * 10)))
      :: tail
    /\ (tail = []
        \/ exists tail',
             tail = BarEvent "GOOG" 2 86400 110 110 110 110 1 :: tail').
Proof.
  apply (proj2 (proj2 (proj2 (proj2
           (session_dispatch_order (ops := SpecPosition.ops) 2
              two_bar_session))))
         empty_info true "GOOG" "GOOG" "BOT" 86400%Z 86400%Z
         100 100 100 100 1 110 110 110 110 1 10).
  - reflexivity.
  - reflexivity.
  - reflexivity.
  - apply lookup_singleton_eq.
  - reflexivity.
Defined.

(** *** The positions dictionary keeps its keys distinct *)

Lemma dict_mem_false_notin {V : Type} (k : string) (d : list (string * V)) :
  dict_mem k d = false -> k ∉ map fst d.
Proof.
  induction d as [|[k' v] d IH]; cbn; [intros _; apply not_elem_of_nil|].
  destruct (String.eqb k k') eqn:E; [discriminate|].
  intros Hm. apply not_elem_of_cons. split; [|auto].
  apply String.eqb_neq. exact E.
Qed.

Section KeysDistinct.

Context {ops : PositionOps} {H : Type} `{PriceHandler H}.

(** The hypothesis of distinct keys made on the association list holds in
    the empty portfolio and is kept by every transaction, whether it
    returns or raises. *)
Lemma transact_position_keys_NoDup (ph : H) (pf : Portfolio)
    (action ticker : string) (q p c : Q) :
  NoDup (map fst (positions pf)) ->
  NoDup (map fst (positions
                    (state_of (transact_position ph pf action ticker q p c)))).
Proof.
  intros Hnd. unfold transact_position.
  set (s := if String.eqb action "BOT" then _
            else if String.eqb action "SLD" then _ else pf).
  assert (Hp : positions s = positions pf).
  { subst s. destruct (String.eqb action "BOT");
      [|destruct (String.eqb action "SLD")]; reflexivity. }
  rewrite <- Hp in Hnd. clearbody s. clear Hp pf.
  destruct (dict_mem ticker (positions s)) eqn:Em; cbn [negb].
  - unfold _modify_position.
    destruct (dict_get ticker (positions s)) as [pt|]; [|exact Hnd].
    destruct (transact_shares pt action q p c) as [pt1|x pt1];
      [|cbn; rewrite dict_set_keys by exact Em; exact Hnd].
    destruct (bid_ask ph ticker) as [[bid ask]|x];
      [|cbn; rewrite dict_set_keys by exact Em; exact Hnd].
    destruct (update_market_value pt1 bid ask) as [pt2|x pt2];
      [|cbn; rewrite dict_set_keys by exact Em; exact Hnd].
    match goal with
    | |- context [update_portfolio ph ?s1] =>
        destruct (update_portfolio_frame ph s1) as (_ & _ & _ & _ & ->)
    end.
    destruct (Qeq_bool (Position.quantity pt2) 0); cbn [positions set_positions].
    + apply dict_pop_keys_NoDup. rewrite dict_set_keys by exact Em. exact Hnd.
    + rewrite dict_set_keys by exact Em. exact Hnd.
  - unfold _add_position. rewrite Em. cbn [negb].
    destruct (bid_ask ph ticker) as [[bid ask]|x]; [|exact Hnd].
    destruct (Position_new _ _ _ _ _ _ _) as [pos|x]; [|exact Hnd].
    match goal with
    | |- context [update_portfolio ph ?s1] =>
        destruct (update_portfolio_frame ph s1) as (_ & _ & _ & _ & ->)
    end.
    cbn [positions set_positions]. rewrite dict_set_keys_new by exact Em.
    apply NoDup_app. split; [exact Hnd|]. split; [|apply NoDup_singleton].
    intros k Hk Hk'. apply list_elem_of_singleton in Hk'. subst k.
    exact (dict_mem_false_notin _ _ Em Hk).
Qed.

End KeysDistinct.

(** *** Commission *)

(** X1.  For a non-negative quantity and price the stock commission is
    non-negative, at most half the trade value and at most
    max(1, 0.005 * quantity); it is 1 for a trade worth at least 2 of at
    most 200 shares, 0.005 a share from 200 shares on when the price is at
    least 0.01, and half the trade value for a trade worth at most 2. *)
Theorem commission_schedule (quantity p c : Q) :
  calculate_commission quantity (Some p) = Ok c ->
  0 <= quantity -> 0 <= p ->
  0 <= c /\ c <= 0.5 * p * quantity /\ c <= Qmax 1.0 (0.005 * quantity)
  /\ (2 <= p * quantity -> quantity <= 200 -> c == 1)
  /\ (200 <= quantity -> 0.01 <= p -> c == 0.005 * quantity)
  /\ (p * quantity <= 2 -> c == 0.5 * p * quantity).
Proof.
  unfold calculate_commission. intros [= <-] Hq Hp.
  assert (Hpq : 0 <= p * quantity) by (apply Qmult_le_0_compat; assumption).
  set (v := p * quantity) in *.
  assert (Hv : 0.5 * p * quantity == 0.5 * v) by (unfold v; ring).
  destruct (Q.max_spec 1.0 (0.005 * quantity)) as [[H1 H2] | [H1 H2]];
  destruct (Q.min_spec (0.5 * p * quantity) (Qmax 1.0 (0.005 * quantity)))
    as [[H3 H4] | [H3 H4]]; rewrite H4; rewrite ?H2 in *; rewrite ?Hv in *.
  all: repeat split; try lra; intros;
    try (assert (0.01 * quantity <= v)
           by (unfold v; apply Qmult_le_compat_r; assumption)); lra.
Qed.

Lemma commission_schedule_witness :
  0 <= 1.0 /\ 1.0 <= 0.5 * 100 * 10 /\ 1.0 <= Qmax 1.0 (0.005 * 10)
  /\ (2 <= 100 * 10 -> 10 <= 200 -> 1.0 == 1)
  /\ (200 <= 10 -> 0.01 <= 100 -> 1.0 == 0.005 * 10)
  /\ (100 * 10 <= 2 -> 1.0 == 0.5 * 100 * 10).
Proof.
  apply (commission_schedule 10 100 1.0); [reflexivity | discriminate..].
Defined.

(** X2.  The fund handler inherits [execute_order], which computes the
    commission with the stock handler's formula: for a positive price and
    quantity its fill carries the commission the stock handler's
    [calculate_commission] returns, which is positive, although the fund
    handler's own [calculate_commission] is zero. *)
Theorem fund_fill_pays_stock_commission {H : Type} `{PriceHandler H}
    (ph : H) (queue : list Event) (ticker action : string)
    (quantity p : Q) (timestamp : option Z) :
  get_last_timestamp ph ticker = Ok timestamp ->
  istick ph = false -> get_last_close ph ticker = Ok (Some p) ->
  0 < p -> 0 < quantity ->
  exists c,
    Fund_execute_order ph queue (OrderEvent ticker action quantity)
    = Ok (queue ++ [FillEvent timestamp ticker action quantity "Oslo Boers"
                      p c])
    /\ calculate_commission quantity (Some p) = Ok c
    /\ 0 < c
    /\ Fund_calculate_commission quantity (Some p) = Ok 0.
Proof.
  intros Hts Ht Hc Hp Hq.
  exists (Qmin (0.5 * p * quantity) (Qmax 1.0 (0.005 * quantity))).
  split; [|split; [reflexivity|split; [|reflexivity]]].
  - unfold Fund_execute_order, execute_order. rewrite Hts. cbn [bind].
    rewrite Ht, Hc. reflexivity.
  - assert (Hpq : 0 < p * quantity) by (apply Qmult_lt_0_compat; assumption).
    destruct (Q.max_spec 1.0 (0.005 * quantity)) as [[H1 H2] | [H1 H2]];
    destruct (Q.min_spec (0.5 * p * quantity) (Qmax 1.0 (0.005 * quantity)))
      as [[H3 H4] | [H3 H4]]; rewrite H4; rewrite ?H2; lra.
Qed.

Lemma fund_fill_pays_stock_commission_witness :
  exists c,
    Fund_execute_order goog_handler [] (OrderEvent "GOOG" "BOT" 10)
    = Ok ([] ++ [FillEvent (Some 1%Z) "GOOG" "BOT" 10 "Oslo Boers" 100 c])
    /\ calculate_commission 10 (Some 100) = Ok c
    /\ 0 < c
    /\ Fund_calculate_commission 10 (Some 100) = Ok 0.
Proof.
  apply (fund_fill_pays_stock_commission goog_handler [] "GOOG" "BOT" 10 100
           (Some 1%Z)); reflexivity.
Defined.

(** *** Subscriptions and the stream *)

(** X3.  An order dispatched right after a bar of its ticker was streamed
    is filled at that bar's close and carries that bar's time; the bar
    itself went onto the queue and the entries of the other tickers were
    left alone. *)
Theorem order_fills_at_last_streamed_bar (h h' : OHLCVPriceHandler)
    (q q' rest : list Event) (ticker action : string) (time period : Z)
    (o hi lo close v quantity : Q) :
  bar_stream h = BarEvent ticker time period o hi lo close v :: rest ->
  OHLCV_stream_next h q = Returned (h', q') ->
  q' = q ++ [BarEvent ticker time period o hi lo close v]
  /\ bar_stream h' = rest
  /\ (forall other, other <> ticker ->
        tickers h' !! other = tickers h !! other)
  /\ execute_order h' [] (OrderEvent ticker action quantity)
     = Ok [FillEvent (Some time) ticker action quantity "Oslo Boers" close
             (Qmin (0.5 * close * quantity) (Qmax 1.0 (0.005 * quantity)))].
Proof.
  intros Hs. unfold OHLCV_stream_next. rewrite Hs. cbn [event_type].
  unfold OHLCV_store_event. cbn [tickers].
  destruct (tickers h !! ticker) as [d|] eqn:Hd; [|discriminate].
  intros [= <- <-]. cbn [bar_stream tickers].
  split; [reflexivity|]. split; [reflexivity|]. split.
  - intros other Hne. apply lookup_insert_ne. congruence.
  - unfold execute_order. cbn [get_last_timestamp get_last_close istick
                               OHLCV_handler tickers].
    unfold PriceHandler_get_last_timestamp, PriceHandler_get_last_close.
    rewrite lookup_insert_eq. reflexivity.
Qed.

Lemma order_fills_at_last_streamed_bar_witness :
  [BarEvent "GOOG" 2 86400 110 110 110 110 1]
  = [] ++ [BarEvent "GOOG" 2 86400 110 110 110 110 1]
  /\ bar_stream
       (mkOHLCV true
          (<["GOOG"%string := mkTickerInfo (Some 110) (Some 2%Z) None None]>
             (tickers goog_handler)) [] []) = []
  /\ (forall other, other <> "GOOG"%string ->
        tickers
          (mkOHLCV true
             (<["GOOG"%string := mkTickerInfo (Some 110) (Some 2%Z) None None]>
                (tickers goog_handler)) [] []) !! other
        = tickers goog_handler !! other)
  /\ execute_order
       (mkOHLCV true
          (<["GOOG"%string := mkTickerInfo (Some 110) (Some 2%Z) None None]>
             (tickers goog_handler)) [] [])
       [] (OrderEvent "GOOG" "SLD" 10)
     = Ok [FillEvent (Some 2%Z) "GOOG" "SLD" 10 "Oslo Boers" 110
             (Qmin (0.5 * 110 * 10) (Qmax 1.0 (0.005 * 10)))].
Proof.
  apply (order_fills_at_last_streamed_bar goog_handler _ [] _ [] "GOOG" "SLD"
           2 86400 110 110 110 110 1 10); reflexivity.
Defined.

Lemma dict_pop_absent {V : Type} (k : string) (d : list (string * V)) :
  dict_get k d = None -> dict_pop k d = d.
Proof.
  induction d as [|[k' v] d IH]; cbn; [reflexivity|].
  destruct (String.eqb k k'); [discriminate|].
  intros Hg. f_equal. auto.
Qed.

Lemma dict_get_pop_ne {V : Type} (k other : string) (d : list (string * V)) :
  other <> k -> dict_get other (dict_pop k d) = dict_get other d.
Proof.
  intros Hne. induction d as [|[k' v] d IH]; cbn; [reflexivity|].
  destruct (String.eqb k k') eqn:E1.
  - apply String.eqb_eq in E1. subst k'.
    apply String.eqb_neq in Hne. rewrite Hne. reflexivity.
  - cbn. destruct (String.eqb other k'); [reflexivity | exact IH].
Qed.

(** X4.  After [unsubscribe_ticker] the three lookups of that ticker give
    [None] without raising and the lookups and the frame of every other
    ticker are what they were; the ticker's frame is gone from the data,
    and unsubscribing again changes nothing (the names in the data being
    distinct, as the keys of a dictionary are). *)
Theorem unsubscribe_ticker_forgets (h : OHLCVPriceHandler)
    (ticker other : string) :
  let h' := unsubscribe_ticker h ticker in
  get_last_close h' ticker = Ok None
  /\ get_last_timestamp h' ticker = Ok None
  /\ get_best_bid_ask h' ticker = Ok (None, None)
  /\ (other <> ticker ->
      get_last_close h' other = get_last_close h other
      /\ get_last_timestamp h' other = get_last_timestamp h other
      /\ get_best_bid_ask h' other = get_best_bid_ask h other
      /\ dict_get other (data h') = dict_get other (data h))
  /\ (NoDup (map fst (data h)) ->
      dict_get ticker (data h') = None /\ unsubscribe_ticker h' ticker = h').
Proof.
  cbn zeta. unfold unsubscribe_ticker.
  cbn [get_last_close get_last_timestamp get_best_bid_ask OHLCV_handler
       tickers data cnt_backtest bar_stream].
  unfold PriceHandler_get_last_close, PriceHandler_get_last_timestamp,
    PriceHandler_get_best_bid_ask.
  rewrite lookup_delete_eq.
  split; [reflexivity|]. split; [reflexivity|]. split; [reflexivity|].
  split.
  - intros Hne. rewrite lookup_delete_ne by congruence.
    repeat split; try reflexivity. apply dict_get_pop_ne. exact Hne.
  - intros Hnd. pose proof (dict_get_pop_eq ticker (data h) Hnd) as Hg.
    split; [exact Hg|].
    rewrite delete_delete_eq, (dict_pop_absent _ _ Hg). reflexivity.
Qed.

Lemma unsubscribe_ticker_forgets_witness :
  let h' := unsubscribe_ticker goog_handler "GOOG" in
  get_last_close h' "GOOG" = Ok None
  /\ get_last_timestamp h' "GOOG" = Ok None
  /\ get_best_bid_ask h' "GOOG" = Ok (None, None)
  /\ ("MSFT"%string <> "GOOG"%string ->
      get_last_close h' "MSFT" = get_last_close goog_handler "MSFT"
      /\ get_last_timestamp h' "MSFT" = get_last_timestamp goog_handler "MSFT"
      /\ get_best_bid_ask h' "MSFT" = get_best_bid_ask goog_handler "MSFT"
      /\ dict_get "MSFT" (data h') = dict_get "MSFT" (data goog_handler))
  /\ (NoDup (map fst (data goog_handler)) ->
      dict_get "GOOG" (data h') = None /\ unsubscribe_ticker h' "GOOG" = h').
Proof. exact (unsubscribe_ticker_forgets goog_handler "GOOG" "MSFT"). Defined.

(** X5.  Unsubscribing a ticker leaves its bars in the stream: the next
    [stream_next] on such a bar raises [KeyError], and the bar, already
    taken from the stream, is not put on the queue. *)
Theorem stream_next_after_unsubscribe (h : OHLCVPriceHandler)
    (q rest : list Event) (ticker : string) (time period : Z)
    (o hi lo close v : Q) :
  bar_stream h = BarEvent ticker time period o hi lo close v :: rest ->
  OHLCV_stream_next (unsubscribe_ticker h ticker) q
  = Raised KeyError
      (mkOHLCV (cnt_backtest h) (delete ticker (tickers h))
         (dict_pop ticker (data h)) rest, q).
Proof.
  intros Hs. unfold OHLCV_stream_next, unsubscribe_ticker.
  cbn [bar_stream cnt_backtest tickers data]. rewrite Hs. cbn [event_type].
  unfold OHLCV_store_event. cbn [tickers]. rewrite lookup_delete_eq.
  reflexivity.
Qed.

Lemma stream_next_after_unsubscribe_witness :
  OHLCV_stream_next (unsubscribe_ticker goog_handler "GOOG") []
  = Raised KeyError
      (mkOHLCV (cnt_backtest goog_handler)
         (delete "GOOG"%string (tickers goog_handler))
         (dict_pop "GOOG" (data goog_handler)) [], []).
Proof.
  apply (stream_next_after_unsubscribe goog_handler [] [] "GOOG" 2 86400
           110 110 110 110 1).
  reflexivity.
Defined.

(** *** The stream is a stable sort of the rows and the dates *)

Lemma merge_sort_ticker_data_input (d : list (string * list (Z * Q)))
    (evs : list Event) :
  _merge_sort_ticker_data d = Ok evs -> evs = sorted_by_time (stream_input d).
Proof.
  unfold _merge_sort_ticker_data, concat_frames, bind.
  destruct d as [|f d]; [discriminate|].
  intros [= <-]. reflexivity.
Qed.

Lemma insert_event_at_time (k : Z) (e : Event) (l : list Event) :
  at_time k (insert_event e l) = at_time k (e :: l).
Proof.
  unfold at_time. induction l as [|x l IH]; cbn [insert_event]; [reflexivity|].
  destruct (event_time e <=? event_time x)%Z eqn:E; [reflexivity|].
  apply Z.leb_gt in E. cbn [List.filter] in *. rewrite IH.
  destruct (event_time e =? k)%Z eqn:Ee; [|reflexivity].
  apply Z.eqb_eq in Ee.
  assert (Hx : (event_time x =? k)%Z = false) by (apply Z.eqb_neq; lia).
  rewrite Hx. reflexivity.
Qed.

Lemma sorted_by_time_at_time (k : Z) (l : list Event) :
  at_time k (sorted_by_time l) = at_time k l.
Proof.
  induction l as [|e l IH]; cbn [sorted_by_time]; [reflexivity|].
  rewrite insert_event_at_time. unfold at_time in *. cbn [List.filter].
  rewrite IH. reflexivity.
Qed.

Lemma unique_spec (seen l : list Z) :
  NoDup (unique seen l)
  /\ forall x, x ∈ unique seen l <-> x ∈ l /\ x ∉ seen.
Proof.
  revert seen. induction l as [|y l IH]; intros seen; cbn [unique].
  - split; [constructor|]. intros x. split; [intros Hx|intros [Hx _]];
      apply elem_of_nil in Hx; contradiction.
  - case_bool_decide as Hy.
    + destruct (IH seen) as [Hn Hi]. split; [exact Hn|].
      intros x. rewrite Hi, elem_of_cons. split; [tauto|].
      intros [[-> | Hx] Hs]; tauto.
    + destruct (IH (y :: seen)) as [Hn Hi]. split.
      * apply NoDup_cons. split; [|exact Hn].
        rewrite Hi, elem_of_cons. tauto.
      * intros x. rewrite !elem_of_cons, Hi, elem_of_cons.
        destruct (decide (x = y)) as [-> | Hne]; tauto.
Qed.

Lemma NoDup_map_iff {A B : Type} (f : A -> B) (l : list A) :
  NoDup l ->
  NoDup (map f l)
  <-> (forall x y, x ∈ l -> y ∈ l -> f x = f y -> x = y).
Proof.
  induction 1 as [|a l Ha Hn IH]; cbn [map].
  - split; [|constructor]. intros _ x y Hx. apply elem_of_nil in Hx as [].
  - rewrite NoDup_cons, IH. split.
    + intros [Hfa Hinj] x y Hx Hy Hf.
      apply elem_of_cons in Hx as [-> | Hx];
        apply elem_of_cons in Hy as [-> | Hy].
      * reflexivity.
      * exfalso. apply Hfa. rewrite Hf.
        apply list_elem_of_In, in_map, list_elem_of_In, Hy.
      * exfalso. apply Hfa. rewrite <- Hf.
        apply list_elem_of_In, in_map, list_elem_of_In, Hx.
      * apply Hinj; assumption.
    + intros Hinj. split.
      * intros Hin. apply list_elem_of_In, in_map_iff in Hin as (y & He & Hy).
        apply list_elem_of_In in Hy.
        assert (y = a) as ->
          by (apply Hinj; [right; exact Hy | left | exact He]).
        exact (Ha Hy).
      * intros x y Hx Hy. apply Hinj; right; assumption.
Qed.

(** X6.  The stream built by [_merge_sort_ticker_data] holds exactly one
    bar for each row of the data and one end-of-day event for each
    distinct index value; these end-of-day events are pairwise distinct,
    one for a date, exactly when no two different index values fall on
    the same date.  Events with the same time come in the order in which
    they were handed to the sort: bars in the order of subscription and
    of the rows, then the end-of-day events. *)
Theorem merge_sort_ticker_data_stable (d : list (string * list (Z * Q)))
    (evs : list Event) :
  _merge_sort_ticker_data d = Ok evs ->
  let dates := map (fun x : Z * Q * string => fst (fst x)) (frame_rows d) in
  Permutation evs
    (map bar_of_row (frame_rows d)
     ++ map (fun x => EODEvent (end_of_day x)) (unique [] dates))
  /\ NoDup (unique [] dates)
  /\ (forall x, x ∈ unique [] dates <-> x ∈ dates)
  /\ (NoDup (map (fun x => EODEvent (end_of_day x)) (unique [] dates))
      <-> forall x y, x ∈ dates -> y ∈ dates ->
                      end_of_day x = end_of_day y -> x = y)
  /\ (forall k, at_time k evs = at_time k (stream_input d)).
Proof.
  intros He. apply merge_sort_ticker_data_input in He. subst evs. cbn zeta.
  split; [symmetry; apply sorted_by_time_perm|].
  destruct (unique_spec []
              (map (fun x : Z * Q * string => fst (fst x)) (frame_rows d)))
    as [Hn Hi].
  assert (Hi' : forall x,
             x ∈ unique [] (map (fun x : Z * Q * string => fst (fst x))
                              (frame_rows d))
             <-> x ∈ map (fun x : Z * Q * string => fst (fst x))
                   (frame_rows d)).
  { intros x. rewrite Hi. split; [tauto|]. intros Hx. split; [exact Hx|].
    apply not_elem_of_nil. }
  split; [exact Hn|]. split; [exact Hi'|]. split.
  - rewrite (NoDup_map_iff _ _ Hn). split.
    + intros Hinj x y Hx Hy Heq. apply Hinj; [apply Hi', Hx|apply Hi', Hy|].
      rewrite Heq. reflexivity.
    + intros Hinj x y Hx Hy [= Heq]. apply Hinj; [apply Hi', Hx|apply Hi', Hy|].
      exact Heq.
  - intros k. apply sorted_by_time_at_time.
Qed.

Lemma merge_sort_ticker_data_stable_witness :
  let evs := sorted_by_time (stream_input two_ticker_data) in
  let dates :=
    map (fun x : Z * Q * string => fst (fst x)) (frame_rows two_ticker_data) in
  Permutation evs
    (map bar_of_row (frame_rows two_ticker_data)
     ++ map (fun x => EODEvent (end_of_day x)) (unique [] dates))
  /\ NoDup (unique [] dates)
  /\ (forall x, x ∈ unique [] dates <-> x ∈ dates)
  /\ (NoDup (map (fun x => EODEvent (end_of_day x)) (unique [] dates))
      <-> forall x y, x ∈ dates -> y ∈ dates ->
                      end_of_day x = end_of_day y -> x = y)
  /\ (forall k, at_time k evs = at_time k (stream_input two_ticker_data)).
Proof.
  apply (merge_sort_ticker_data_stable two_ticker_data
           (sorted_by_time (stream_input two_ticker_data))).
  reflexivity.
Defined.

Lemma end_of_day_ge (x : Z) : (x <= end_of_day x)%Z.
Proof.
  unfold end_of_day.
  pose proof (Z.div_mod x 86400 ltac:(lia)) as Hd.
  pose proof (Z.mod_pos_bound x 86400 ltac:(lia)) as Hm. lia.
Qed.

Lemma split_behind (P : Event -> Prop) (X Y A B : list Event) (e : Event) :
  X ++ Y = A ++ e :: B -> Forall P X -> ~ P e ->
  exists A', Y = A' ++ e :: B.
Proof.
  revert A. induction X as [|x X IH]; intros A; cbn [app].
  - intros ->. eauto.
  - intros Heq HP Hne. apply Forall_cons in HP as [Hx HX].
    destruct A as [|a A]; cbn [app] in Heq; injection Heq as -> Heq.
    + contradiction.
    + eauto.
Qed.

(** X7.  In the stream built by [_merge_sort_ticker_data] no bar comes
    after the end-of-day event of its own date: when the end-of-day event
    of a date is dispatched, each bar of that date has been. *)
Theorem bars_before_their_end_of_day (d : list (string * list (Z * Q)))
    (evs l1 l2 : list Event) (t : Z) (e : Event) :
  _merge_sort_ticker_data d = Ok evs ->
  evs = l1 ++ EODEvent t :: l2 ->
  e ∈ l2 -> event_type e = BAR ->
  end_of_day (event_time e) <> t.
Proof.
  intros He Hsplit Hin Hbar Heod.
  pose proof (merge_sort_ticker_data_sorted d evs He) as Hs.
  apply merge_sort_ticker_data_input in He.
  (* the bar is not earlier than the end-of-day event, so it is at its time *)
  assert (Hle : (t <= event_time e)%Z).
  { rewrite Hsplit in Hs. clear -Hs Hin.
    induction l1 as [|x l1 IH]; cbn [app] in Hs;
      apply StronglySorted_inv in Hs as [Hs Hx]; [|auto].
    rewrite Forall_forall in Hx. exact (Hx e Hin). }
  pose proof (end_of_day_ge (event_time e)) as Hge.
  assert (Ht : event_time e = t) by lia.
  (* among the events at that time, the sort kept the bars in front *)
  pose proof (sorted_by_time_at_time t (stream_input d)) as Hst.
  rewrite <- He, Hsplit in Hst. unfold at_time, stream_input in Hst.
  rewrite !List.filter_app in Hst. cbn [List.filter event_time] in Hst.
  rewrite Z.eqb_refl in Hst. symmetry in Hst.
  apply (split_behind (fun x => event_type x = BAR)) in Hst
    as [A' HA'].
  - assert (He2 : e ∈ List.filter (fun x => (event_time x =? t)%Z) l2).
    { apply list_elem_of_In, List.filter_In. split;
        [apply list_elem_of_In; exact Hin | apply Z.eqb_eq; exact Ht]. }
    assert (He3 : e ∈ List.filter (fun x => (event_time x =? t)%Z)
                    (map (fun x => EODEvent (end_of_day x))
                       (unique [] (map (fun x : Z * Q * string => fst (fst x))
                                     (frame_rows d))))).
    { rewrite HA'. apply elem_of_app. right. apply list_elem_of_further.
      exact He2. }
    apply list_elem_of_In, List.filter_In in He3 as [He3 _].
    apply List.in_map_iff in He3 as (x & <- & _). discriminate Hbar.
  - apply Forall_forall. intros x Hx.
    apply list_elem_of_In, List.filter_In in Hx as [Hx _].
    apply List.in_map_iff in Hx as ([[i c] n] & <- & _). reflexivity.
  - discriminate.
Qed.

Lemma bars_before_their_end_of_day_witness :
  end_of_day (event_time (BarEvent "AAA" 86400 86400 2 2 2 2 100000000000000))
  <> 86399%Z.
Proof.
  apply (bars_before_their_end_of_day two_ticker_data
           (sorted_by_time (stream_input two_ticker_data))
           [BarEvent "AAA" 0 86400 1 1 1 1 100000000000000;
            BarEvent "BBB" 0 86400 3 3 3 3 100000000000000]
           [BarEvent "AAA" 86400 86400 2 2 2 2 100000000000000;
            BarEvent "BBB" 86400 86400 4 4 4 4 100000000000000;
            EODEvent 172799]).
  - reflexivity.
  - reflexivity.
  - apply list_elem_of_here.
  - reflexivity.
Defined.

(** *** Construction of the bar handler *)

Lemma dict_mem_set {V : Type} (k k' : string) (v : V) (d : list (string * V)) :
  dict_mem k (dict_set k' v d) = (String.eqb k k' || dict_mem k d)%bool.
Proof.
  induction d as [|[k2 v2] d IH]; cbn.
  - destruct (String.eqb k k'); reflexivity.
  - destruct (String.eqb k' k2) eqn:E; cbn.
    + apply String.eqb_eq in E. subst k2.
      destruct (String.eqb k k'); reflexivity.
    + rewrite IH. destruct (String.eqb k k2), (String.eqb k k'); reflexivity.
Qed.

Lemma dict_get_set {V : Type} (k k' : string) (v : V) (d : list (string * V)) :
  dict_get k (dict_set k' v d)
  = if String.eqb k k' then Some v else dict_get k d.
Proof.
  induction d as [|[k2 v2] d IH]; cbn.
  - destruct (String.eqb k k'); reflexivity.
  - destruct (String.eqb k' k2) eqn:E; cbn.
    + apply String.eqb_eq in E. subst k2.
      destruct (String.eqb k k'); reflexivity.
    + rewrite IH. destruct (String.eqb k k2) eqn:E2; [|reflexivity].
      apply String.eqb_eq in E2. subst k2.
      rewrite String.eqb_sym, E. reflexivity.
Qed.

Lemma dict_mem_elem {V : Type} (k : string) (d : list (string * V)) :
  dict_mem k d = true <-> k ∈ map fst d.
Proof.
  split.
  - induction d as [|[k' v] d IH]; cbn; [discriminate|].
    destruct (String.eqb k k') eqn:E.
    + apply String.eqb_eq in E. subst. intros _. apply list_elem_of_here.
    + intros Hm. apply list_elem_of_further. auto.
  - intros Hin. destruct (dict_mem k d) eqn:E; [reflexivity|].
    exfalso. exact (dict_mem_false_notin _ _ E Hin).
Qed.

Lemma subscribe_tickers_well (read : Z -> option (list (Z * Q)))
    (pairs : list (Z * string)) (h : OHLCVPriceHandler) (id : Z)
    (name : string) :
  (id, name) ∈ pairs -> subscribed_well read pairs h ->
  subscribed_well read pairs (subscribe_tickers read h id name)
  /\ cnt_backtest (subscribe_tickers read h id name) = cnt_backtest h
  /\ bar_stream (subscribe_tickers read h id name) = bar_stream h.
Proof.
  intros Hin (H1 & H2 & H3 & H4). unfold subscribe_tickers.
  destruct (tickers h !! name) as [d|] eqn:Ht; [repeat split; auto; apply H1|].
  destruct (read id) as [df|] eqn:Hr; [|repeat split; auto; apply H1].
  assert (Hm : dict_mem name (data h) = false).
  { destruct (dict_mem name (data h)) eqn:E; [|reflexivity].
    apply H1 in E. rewrite Ht in E. destruct E; discriminate. }
  split; [|split; reflexivity]. unfold subscribed_well. cbn [tickers data].
  split; [|split; [|split]].
  - intros name0. rewrite dict_mem_set.
    destruct (String.eqb name0 name) eqn:E.
    + apply String.eqb_eq in E. subst. rewrite lookup_insert_eq.
      split; eauto.
    + apply String.eqb_neq in E. rewrite lookup_insert_ne by congruence.
      cbn. apply H1.
  - intros name0 d. destruct (decide (name0 = name)) as [-> | Hne].
    + rewrite lookup_insert_eq. congruence.
    + rewrite lookup_insert_ne by congruence. apply H2.
  - rewrite dict_set_keys_new by exact Hm.
    apply NoDup_app. split; [exact H3|]. split; [|apply NoDup_singleton].
    intros k Hk Hk'. apply list_elem_of_singleton in Hk'. subst k.
    exact (dict_mem_false_notin _ _ Hm Hk).
  - intros name0 df0. rewrite dict_get_set.
    destruct (String.eqb name0 name) eqn:E.
    + apply String.eqb_eq in E. subst. intros [= <-]. eauto.
    + apply H4.
Qed.

Lemma subscribe_all_well (read : Z -> option (list (Z * Q)))
    (pairs todo : list (Z * string)) (h : OHLCVPriceHandler) :
  (forall p, p ∈ todo -> p ∈ pairs) -> subscribed_well read pairs h ->
  let h' := fold_left (fun h p => subscribe_tickers read h (fst p) (snd p))
              todo h in
  subscribed_well read pairs h'
  /\ cnt_backtest h' = cnt_backtest h /\ bar_stream h' = bar_stream h.
Proof.
  cbn zeta. revert h. induction todo as [|[id name] todo IH]; intros h Hsub Hw;
    cbn [fold_left fst snd]; [auto|].
  destruct (subscribe_tickers_well read pairs h id name) as (Hw' & Hc & Hs);
    [apply Hsub, list_elem_of_here | exact Hw |].
  destruct (IH (subscribe_tickers read h id name)) as (Hw2 & Hc2 & Hs2);
    [intros p Hp; apply Hsub, list_elem_of_further, Hp | exact Hw' |].
  split; [exact Hw2|]. split; congruence.
Qed.

Lemma frame_rows_ticker (d : list (string * list (Z * Q)))
    (x : Z * Q * string) :
  x ∈ frame_rows d -> snd x ∈ map fst d.
Proof.
  unfold frame_rows. intros Hx. apply list_elem_of_In, in_flat_map in Hx
    as (f & Hf & Hx).
  apply List.in_map_iff in Hx as (r & <- & _). cbn.
  apply list_elem_of_In, List.in_map. exact Hf.
Qed.

Lemma stream_input_subscribed (tks : gmap string TickerInfo)
    (d : list (string * list (Z * Q))) :
  (forall name, dict_mem name d = true -> is_Some (tks !! name)) ->
  Forall (bar_subscribed tks) (stream_input d).
Proof.
  intros Hsub. unfold stream_input. apply Forall_app. split.
  - apply Forall_forall. intros e He.
    apply list_elem_of_In, List.in_map_iff in He as ([[i c] n] & <- & Hx).
    cbn. apply Hsub, dict_mem_elem.
    apply (frame_rows_ticker d (i, c, n)), list_elem_of_In, Hx.
  - apply Forall_forall. intros e He.
    apply list_elem_of_In, List.in_map_iff in He as (x & <- & _). exact I.
Qed.

Lemma init_invariants (read : Z -> option (list (Z * Q)))
    (ticker_ids : list Z) (ticker_names : list string)
    (h : OHLCVPriceHandler) :
  OHLCVPriceHandler_init read ticker_ids ticker_names = Ok h ->
  cnt_backtest h = true
  /\ subscribed_well read (combine ticker_ids ticker_names) h
  /\ _merge_sort_ticker_data (data h) = Ok (bar_stream h)
  /\ StronglySorted time_le (bar_stream h)
  /\ Forall (bar_subscribed (tickers h)) (bar_stream h).
Proof.
  unfold OHLCVPriceHandler_init.
  destruct (subscribe_all_well read (combine ticker_ids ticker_names)
              (combine ticker_ids ticker_names) (mkOHLCV true ∅ [] []))
    as (Hw & Hc & _).
  { auto. }
  { repeat split; cbn.
    - intros [x Hx]. rewrite lookup_empty in Hx. discriminate.
    - discriminate.
    - intros name d. rewrite lookup_empty. discriminate.
    - constructor.
    - discriminate. }
  cbn zeta in Hw, Hc.
  set (h0 := fold_left _ _ _) in *. unfold bind.
  destruct (_merge_sort_ticker_data (data h0)) as [stream|x] eqn:Es;
    [|discriminate].
  intros [= <-]. cbn [cnt_backtest tickers data bar_stream].
  split; [exact Hc|]. split; [exact Hw|]. split; [exact Es|].
  split; [exact (merge_sort_ticker_data_sorted _ _ Es)|].
  apply merge_sort_ticker_data_input in Es. subst stream.
  destruct Hw as (H1 & _).
  pose proof (stream_input_subscribed (tickers h0) (data h0)
                (fun name => proj2 (H1 name))) as Hf.
  rewrite Forall_forall in Hf |- *. intros e He. apply Hf.
  apply list_elem_of_In. apply list_elem_of_In in He.
  exact (Permutation_in _ (Permutation_sym (sorted_by_time_perm _)) He).
Qed.

Lemma subscribe_tickers_data (read : Z -> option (list (Z * Q)))
    (pairs : list (Z * string)) (h : OHLCVPriceHandler) (id : Z)
    (name name0 : string) :
  subscribed_well read pairs h ->
  dict_get name0 (data (subscribe_tickers read h id name))
  = match dict_get name0 (data h) with
    | Some df => Some df
    | None => if String.eqb name0 name then read id else None
    end.
Proof.
  intros (H1 & _). unfold subscribe_tickers.
  destruct (tickers h !! name) as [d|] eqn:Ht.
  - destruct (dict_get name0 (data h)) as [df|] eqn:Eg; [reflexivity|].
    destruct (String.eqb name0 name) eqn:E; [|reflexivity].
    apply String.eqb_eq in E. subst name0.
    apply dict_mem_false_get in Eg.
    assert (Hm : dict_mem name (data h) = true) by (apply H1; eauto).
    congruence.
  - assert (Hg : dict_get name (data h) = None).
    { apply dict_mem_false_get.
      destruct (dict_mem name (data h)) eqn:E; [|reflexivity].
      apply H1 in E. rewrite Ht in E. destruct E; discriminate. }
    destruct (read id) as [df|] eqn:Hr; cbn [data].
    + rewrite dict_get_set. destruct (String.eqb name0 name) eqn:E.
      * apply String.eqb_eq in E. subst name0. rewrite Hg. reflexivity.
      * destruct (dict_get name0 (data h)); reflexivity.
    + destruct (String.eqb name0 name) eqn:E.
      * apply String.eqb_eq in E. subst name0. rewrite Hg. reflexivity.
      * destruct (dict_get name0 (data h)); reflexivity.
Qed.

Lemma subscribe_all_data (read : Z -> option (list (Z * Q)))
    (pairs todo : list (Z * string)) (h : OHLCVPriceHandler) (name : string) :
  (forall p, p ∈ todo -> p ∈ pairs) -> subscribed_well read pairs h ->
  dict_get name
    (data (fold_left (fun h p => subscribe_tickers read h (fst p) (snd p))
             todo h))
  = match dict_get name (data h) with
    | Some df => Some df
    | None => first_frame read todo name
    end.
Proof.
  revert h. induction todo as [|[id n] todo IH]; intros h Hsub Hw;
    cbn [fold_left fst snd first_frame].
  - destruct (dict_get name (data h)); reflexivity.
  - destruct (subscribe_tickers_well read pairs h id n) as (Hw' & _);
      [apply Hsub, list_elem_of_here | exact Hw |].
    rewrite IH;
      [|intros p Hp; apply Hsub, list_elem_of_further, Hp | exact Hw'].
    rewrite (subscribe_tickers_data read pairs h id n name Hw).
    destruct (dict_get name (data h)) as [df|]; [reflexivity|].
    destruct (String.eqb name n); [|reflexivity].
    destruct (read id); reflexivity.
Qed.

Lemma init_first_frame (read : Z -> option (list (Z * Q)))
    (ticker_ids : list Z) (ticker_names : list string)
    (h : OHLCVPriceHandler) (name : string) :
  OHLCVPriceHandler_init read ticker_ids ticker_names = Ok h ->
  dict_get name (data h)
  = first_frame read (combine ticker_ids ticker_names) name.
Proof.
  unfold OHLCVPriceHandler_init, bind.
  set (h0 := fold_left _ _ _).
  destruct (_merge_sort_ticker_data (data h0)) as [stream|x]; [|discriminate].
  intros [= <-]. cbn [data]. subst h0.
  rewrite (subscribe_all_data read (combine ticker_ids ticker_names)).
  - reflexivity.
  - auto.
  - repeat split; cbn.
    + intros [x Hx]. rewrite lookup_empty in Hx. discriminate.
    + discriminate.
    + intros name0 d. rewrite lookup_empty. discriminate.
    + constructor.
    + discriminate.
Qed.

(** X8.  A handler built by [__init__] is ready to stream: it continues;
    the names in [tickers] are the names in [data], each once; the frame
    under a name is the reader's for the first pair with that name whose
    read succeeds, so a name given twice keeps its first frame and a
    ticker whose read fails is skipped; a name has an entry in [tickers],
    an empty one, exactly when it has a frame; the stream is the sorted
    events of the data, and every bar in it is of a subscribed ticker. *)
Theorem init_handler_ready (read : Z -> option (list (Z * Q)))
    (ticker_ids : list Z) (ticker_names : list string)
    (h : OHLCVPriceHandler) :
  OHLCVPriceHandler_init read ticker_ids ticker_names = Ok h ->
  cnt_backtest h = true
  /\ subscribed_well read (combine ticker_ids ticker_names) h
  /\ (forall name,
        dict_get name (data h)
        = first_frame read (combine ticker_ids ticker_names) name)
  /\ (forall name,
        tickers h !! name
        = match first_frame read (combine ticker_ids ticker_names) name with
          | Some _ => Some empty_info
          | None => None
          end)
  /\ _merge_sort_ticker_data (data h) = Ok (bar_stream h)
  /\ StronglySorted time_le (bar_stream h)
  /\ Forall (bar_subscribed (tickers h)) (bar_stream h).
Proof.
  intros Hi. destruct (init_invariants _ _ _ _ Hi) as (Hc & Hw & Hs & Ho & Hb).
  pose proof (fun name => init_first_frame _ _ _ _ name Hi) as Hf.
  split; [exact Hc|]. split; [exact Hw|]. split; [exact Hf|].
  split; [|auto]. intros name. destruct Hw as (H1 & H2 & _).
  rewrite <- Hf. destruct (tickers h !! name) as [d|] eqn:Ht.
  - rewrite (H2 _ _ Ht) in *.
    assert (Hm : dict_mem name (data h) = true) by (apply H1; eauto).
    apply dict_mem_get in Hm as [df ->]. reflexivity.
  - destruct (dict_get name (data h)) as [df|] eqn:Eg; [|reflexivity].
    assert (Hm : dict_mem name (data h) = true)
      by (apply dict_mem_get; eauto).
    apply H1 in Hm. rewrite Ht in Hm. destruct Hm; discriminate.
Qed.

(** The name AAA is given twice and keeps the frame of its first
    identifier; the read for CCC fails. *)
Lemma init_handler_ready_witness :
  exists h,
    OHLCVPriceHandler_init two_ticker_read [1; 2; 3; 2]%Z
      ["AAA"; "BBB"; "CCC"; "AAA"]%string = Ok h
    /\ dict_get "AAA" (data h) = two_ticker_read 1
    /\ dict_get "CCC" (data h) = None
    /\ cnt_backtest h = true
    /\ subscribed_well two_ticker_read
         (combine [1; 2; 3; 2]%Z ["AAA"; "BBB"; "CCC"; "AAA"]%string) h
    /\ _merge_sort_ticker_data (data h) = Ok (bar_stream h)
    /\ StronglySorted time_le (bar_stream h)
    /\ Forall (bar_subscribed (tickers h)) (bar_stream h).
Proof.
  eexists. split; [reflexivity|].
  destruct (init_handler_ready two_ticker_read [1; 2; 3; 2]%Z
              ["AAA"; "BBB"; "CCC"; "AAA"]%string _ eq_refl)
    as (Hc & Hw & Hf & _ & Hs & Ho & Hb).
  split; [rewrite Hf; reflexivity|].
  split; [rewrite Hf; reflexivity|].
  auto.
Defined.

Lemma stream_n_delivers (n : nat) (h : OHLCVPriceHandler) (q : list Event) :
  Forall (bar_subscribed (tickers h)) (bar_stream h) ->
  exists h',
    stream_n n h q = Returned (h', q ++ take n (bar_stream h))
    /\ bar_stream h' = drop n (bar_stream h)
    /\ cnt_backtest h'
       = (cnt_backtest h && bool_decide (n <= length (bar_stream h))%nat)%bool.
Proof.
  revert h q. induction n as [|n IH]; intros h q Hsub; cbn [stream_n].
  - exists h. rewrite take_0, app_nil_r, drop_0.
    rewrite bool_decide_eq_true_2 by lia. rewrite andb_true_r. auto.
  - unfold OHLCV_stream_next.
    destruct (bar_stream h) as [|e r] eqn:Hs.
    + destruct (IH (mkOHLCV false (tickers h) (data h) []) q)
        as (h' & Hr & Hb & Hc); [constructor|].
      exists h'. cbn [bar_stream cnt_backtest] in *.
      rewrite take_nil in Hr. rewrite drop_nil in Hb.
      rewrite take_nil, drop_nil, andb_false_l in *.
      rewrite bool_decide_eq_false_2 by (cbn; lia).
      rewrite andb_false_r. auto.
    + apply Forall_cons in Hsub as [He Hr].
      assert (Hstep : exists h1,
                 match event_type e with
                 | BAR =>
                     match OHLCV_store_event
                             (mkOHLCV (cnt_backtest h) (tickers h) (data h) r)
                             e with
                     | Returned h' => Returned (h', q ++ [e])
                     | Raised x h' => Raised x (h', q)
                     end
                 | _ => Returned
                          (mkOHLCV (cnt_backtest h) (tickers h) (data h) r,
                           q ++ [e])
                 end = Returned (h1, q ++ [e])
                 /\ bar_stream h1 = r /\ cnt_backtest h1 = cnt_backtest h
                 /\ Forall (bar_subscribed (tickers h1)) r).
      { destruct e; cbn [event_type]; try (eexists; split; [reflexivity|];
          cbn; auto).
        unfold OHLCV_store_event. cbn [tickers bar_subscribed] in *.
        destruct He as [d Hd]. rewrite Hd. eexists. split; [reflexivity|].
        cbn [bar_stream cnt_backtest tickers]. repeat split.
        eapply Forall_impl; [exact Hr|]. intros [] Hx; cbn in *; auto.
        destruct (decide (ticker0 = ticker)) as [-> | Hne].
        - rewrite lookup_insert_eq. eauto.
        - rewrite lookup_insert_ne by congruence. exact Hx. }
      destruct Hstep as (h1 & -> & Hb1 & Hc1 & Hf1).
      destruct (IH h1 (q ++ [e]) ltac:(rewrite Hb1; exact Hf1))
        as (h' & Hr' & Hb' & Hc').
      exists h'. rewrite Hr', Hb', Hc', Hb1, Hc1. cbn [take drop length].
      rewrite <- app_assoc. cbn [app]. repeat split.
      f_equal. apply bool_decide_ext. lia.
Qed.

(** X9.  A handler built by [__init__] streams all its data: however many
    times [stream_next] is called it never raises, the events reach the
    queue one a call in the order of the stream, and
    [continue_backtest] turns false exactly at the first call made after
    the stream has run out. *)
Theorem init_handler_streams_all (read : Z -> option (list (Z * Q)))
    (ticker_ids : list Z) (ticker_names : list string)
    (h : OHLCVPriceHandler) (n : nat) (q : list Event) :
  OHLCVPriceHandler_init read ticker_ids ticker_names = Ok h ->
  exists h',
    stream_n n h q = Returned (h', q ++ take n (bar_stream h))
    /\ bar_stream h' = drop n (bar_stream h)
    /\ continue_backtest h' = bool_decide (n <= length (bar_stream h))%nat.
Proof.
  intros Hi. apply init_invariants in Hi as (Hc & _ & _ & _ & Hf).
  destruct (stream_n_delivers n h q Hf) as (h' & Hr & Hb & Hc').
  exists h'. rewrite Hc in Hc'. auto.
Qed.

Lemma init_handler_streams_all_witness :
  exists h h',
    OHLCVPriceHandler_init two_ticker_read [1; 2; 3]%Z
      ["AAA"; "BBB"; "CCC"]%string = Ok h
    /\ stream_n 7 h [] = Returned (h', [] ++ take 7 (bar_stream h))
    /\ bar_stream h' = drop 7 (bar_stream h)
    /\ continue_backtest h' = bool_decide (7 <= length (bar_stream h))%nat.
Proof.
  eexists.
  assert (Hi : OHLCVPriceHandler_init two_ticker_read [1; 2; 3]%Z
                 ["AAA"; "BBB"; "CCC"]%string = Ok _) by reflexivity.
  destruct (init_handler_streams_all two_ticker_read [1; 2; 3]%Z
              ["AAA"; "BBB"; "CCC"]%string _ 7 [] Hi) as (h' & Hr).
  exists h'. split; [exact Hi | exact Hr].
Defined.

(** X10.  Before the first bar of a ticker has been streamed no order for
    it can be filled: on a handler fresh from [__init__] an order for a
    subscribed ticker raises [KeyError] (its entry has no timestamp yet)
    and an order for any other ticker raises [TypeError]; either way
    nothing is put on the queue. *)
Theorem order_before_first_bar (read : Z -> option (list (Z * Q)))
    (ticker_ids : list Z) (ticker_names : list string)
    (h : OHLCVPriceHandler) (q : list Event) (ticker action : string)
    (quantity : Q) :
  OHLCVPriceHandler_init read ticker_ids ticker_names = Ok h ->
  (is_Some (tickers h !! ticker) ->
   execute_order h q (OrderEvent ticker action quantity) = Raise KeyError)
  /\ (tickers h !! ticker = None ->
      execute_order h q (OrderEvent ticker action quantity) = Raise TypeError).
Proof.
  intros Hi. apply init_invariants in Hi as (_ & (_ & He & _) & _).
  split.
  - intros [d Hd]. pose proof (He _ _ Hd). subst d.
    unfold execute_order.
    cbn [get_last_timestamp OHLCV_handler].
    unfold PriceHandler_get_last_timestamp. rewrite Hd. reflexivity.
  - apply execute_order_unsubscribed.
Qed.

Lemma order_before_first_bar_witness :
  exists h,
    OHLCVPriceHandler_init two_ticker_read [1; 2; 3]%Z
      ["AAA"; "BBB"; "CCC"]%string = Ok h
    /\ execute_order h [] (OrderEvent "AAA" "BOT" 10) = Raise KeyError
    /\ execute_order h [] (OrderEvent "CCC" "BOT" 10) = Raise TypeError.
Proof.
  eexists. split; [reflexivity|].
  destruct (order_before_first_bar two_ticker_read [1; 2; 3]%Z
              ["AAA"; "BBB"; "CCC"]%string _ [] "AAA" "BOT" 10 eq_refl)
    as [Hk _].
  destruct (order_before_first_bar two_ticker_read [1; 2; 3]%Z
              ["AAA"; "BBB"; "CCC"]%string _ [] "CCC" "BOT" 10 eq_refl)
    as [_ Ht].
  split; [apply Hk; eexists; reflexivity | apply Ht; reflexivity].
Defined.

(** *** What a revaluation and a transaction do to the positions *)

Section PortfolioFrame.

Context {ops : PositionOps} {H : Type} `{PriceHandler H}.

Lemma revalue_returned (ph : H) (ps : list (string * Position.t))
    (u e : Q) ps' u' e' :
  revalue ph ps u e = (ps', u', e', None) ->
  Forall2 (revalued ph) ps ps' /\ u' == u + sum_unrealised ps'.
Proof.
  revert u e ps' u' e'.
  induction ps as [|[t pt] ps IH]; intros u e ps' u' e'; cbn [revalue].
  - intros [= <- <- _]. split; [constructor|].
    unfold sum_unrealised. cbn [fold_right]. ring.
  - destruct (bid_ask ph t) as [[bid ask]|x] eqn:Eb; [|discriminate].
    destruct (update_market_value pt bid ask) as [pt'|x pt'] eqn:Eu;
      [|discriminate].
    destruct (revalue ph ps _ _) as [[[r1 u1] e1] err1] eqn:E.
    intros [= <- <- _ ->]. apply IH in E as [Hf Hu]. split.
    + constructor; [|exact Hf]. split; [reflexivity|]. cbn [fst snd]. eauto.
    + rewrite Hu. unfold sum_unrealised. cbn [fold_right snd]. ring.
Qed.

Lemma revalued_dict_get (ph : H) (ps ps' : list (string * Position.t))
    (k : string) :
  Forall2 (revalued ph) ps ps' ->
  match dict_get k ps with
  | Some pt =>
      exists pt', dict_get k ps' = Some pt' /\ revalued ph (k, pt) (k, pt')
  | None => dict_get k ps' = None
  end.
Proof.
  induction 1 as [|[t pt] [t' pt'] ps ps' Hr Hf IH]; cbn [dict_get];
    [reflexivity|].
  pose proof Hr as [Ht Hx]. cbn [fst snd] in Ht, Hx. subst t'.
  destruct (String.eqb k t) eqn:E; [|exact IH].
  apply String.eqb_eq in E. subst t. exists pt'. split; [reflexivity|].
  split; [reflexivity | exact Hx].
Qed.

Lemma update_portfolio_revalued (ph : H) (pf pf' : Portfolio) :
  update_portfolio ph pf = Returned pf' ->
  Forall2 (revalued ph) (positions pf) (positions pf')
  /\ unrealised_pnl pf' == sum_unrealised (positions pf').
Proof.
  unfold update_portfolio.
  destruct (revalue ph (positions pf) _ _) as [[[ps u] e] err] eqn:E.
  destruct err; [discriminate|]. intros [= <-].
  apply revalue_returned in E as [Hf Hu]. cbn [positions unrealised_pnl].
  split; [exact Hf|]. rewrite Hu. ring.
Qed.

(** X11.  When [update_portfolio] returns, every active position has been
    revalued once, in place and in order, at the current quote of its
    ticker, and the portfolio's unrealised PnL is the sum of the
    positions' unrealised PnL. *)
Theorem update_portfolio_revalues_all (ph : H) (pf pf' : Portfolio) :
  update_portfolio ph pf = Returned pf' ->
  Forall2 (revalued ph) (positions pf) (positions pf')
  /\ unrealised_pnl pf' == sum_unrealised (positions pf').
Proof. apply update_portfolio_revalued. Qed.

(** X12.  A transaction on one ticker that returns only revalues the
    positions of the other tickers: a position of another ticker is the
    old one after [update_market_value] at its current quote, and a ticker
    without a position still has none.  The initial cash is unchanged, and
    the closed positions are the old ones, with at most one more at the
    end, whose realised PnL is what the portfolio's grew by. *)
Theorem transact_position_frame (ph : H) (pf pf' : Portfolio)
    (action ticker other : string) (q p c : Q) :
  transact_position ph pf action ticker q p c = Returned pf' ->
  other <> ticker ->
  match dict_get other (positions pf) with
  | Some pt =>
      exists pt', dict_get other (positions pf') = Some pt'
                  /\ revalued ph (other, pt) (other, pt')
  | None => dict_get other (positions pf') = None
  end
  /\ init_cash pf' = init_cash pf
  /\ ((closed_positions pf' = closed_positions pf
       /\ realised_pnl pf' = realised_pnl pf)
      \/ exists closed,
           closed_positions pf' = closed_positions pf ++ [closed]
           /\ realised_pnl pf'
              = realised_pnl pf + Position.realised_pnl closed).
Proof.
  intros Hcall Hne. unfold transact_position in Hcall.
  set (s := if String.eqb action "BOT" then _
            else if String.eqb action "SLD" then _ else pf) in Hcall.
  assert (Hs : positions s = positions pf /\ init_cash s = init_cash pf
               /\ closed_positions s = closed_positions pf
               /\ realised_pnl s = realised_pnl pf).
  { subst s. destruct (String.eqb action "BOT");
      [|destruct (String.eqb action "SLD")]; repeat split. }
  destruct Hs as (Hp & Hi & Hc & Hr). rewrite <- Hp, <- Hi, <- Hc, <- Hr.
  clearbody s. clear Hp Hi Hc Hr pf.
  assert (Hset : forall v, dict_get other (dict_set ticker v (positions s))
                           = dict_get other (positions s)).
  { intros v. rewrite dict_get_set.
    apply String.eqb_neq in Hne. rewrite Hne. reflexivity. }
  destruct (dict_mem ticker (positions s)) eqn:Em; cbn [negb] in Hcall.
  - unfold _modify_position in Hcall.
    apply dict_mem_get in Em as [pt Eg]. rewrite Eg in Hcall.
    destruct (transact_shares pt action q p c) as [pt1|x pt1]; [|discriminate].
    destruct (bid_ask ph ticker) as [[bid ask]|x]; [|discriminate].
    destruct (update_market_value pt1 bid ask) as [pt2|x pt2]; [|discriminate].
    match type of Hcall with
    | update_portfolio ph ?s1 = _ =>
        pose proof (update_portfolio_frame ph s1) as Hf
    end.
    cbn zeta in Hf. rewrite Hcall in Hf. cbn [state_of] in Hf.
    destruct Hf as (_ & Hi & Hr & Hc & _).
    apply update_portfolio_revalued in Hcall as [Hrev _].
    apply (revalued_dict_get ph _ _ other) in Hrev.
    destruct (Qeq_bool (Position.quantity pt2) 0);
      cbn [positions set_positions init_cash realised_pnl closed_positions]
        in *.
    + rewrite dict_get_pop_ne, Hset in Hrev by exact Hne.
      split; [exact Hrev|]. split; [exact Hi|]. right. eauto.
    + rewrite Hset in Hrev.
      split; [exact Hrev|]. split; [exact Hi|]. left. auto.
  - unfold _add_position in Hcall. rewrite Em in Hcall. cbn [negb] in Hcall.
    destruct (bid_ask ph ticker) as [[bid ask]|x]; [|discriminate].
    destruct (Position_new _ _ _ _ _ _ _) as [pos|x]; [|discriminate].
    match type of Hcall with
    | update_portfolio ph ?s1 = _ =>
        pose proof (update_portfolio_frame ph s1) as Hf
    end.
    cbn zeta in Hf. rewrite Hcall in Hf. cbn [state_of] in Hf.
    destruct Hf as (_ & Hi & Hr & Hc & _).
    apply update_portfolio_revalued in Hcall as [Hrev _].
    apply (revalued_dict_get ph _ _ other) in Hrev.
    cbn [positions set_positions init_cash realised_pnl closed_positions] in *.
    rewrite Hset in Hrev.
    split; [exact Hrev|]. split; [exact Hi|]. left. auto.
Qed.

End PortfolioFrame.

Lemma update_portfolio_revalues_all_witness :
  Forall2 (revalued (ops := SpecPosition.ops) goog_handler_110)
    (positions long_goog) (positions long_goog_110)
  /\ unrealised_pnl long_goog_110 == sum_unrealised (positions long_goog_110).
Proof.
  apply (update_portfolio_revalues_all (ops := SpecPosition.ops)
           goog_handler_110 long_goog long_goog_110).
  reflexivity.
Defined.

Lemma transact_position_frame_witness :
  match dict_get "MSFT" (positions long_goog) with
  | Some pt =>
      exists pt', dict_get "MSFT" (positions closed_goog) = Some pt'
                  /\ revalued (ops := SpecPosition.ops) goog_handler_110
                       ("MSFT"%string, pt) ("MSFT"%string, pt')
  | None => dict_get "MSFT" (positions closed_goog) = None
  end
  /\ init_cash closed_goog = init_cash long_goog
  /\ ((closed_positions closed_goog = closed_positions long_goog
       /\ realised_pnl closed_goog = realised_pnl long_goog)
      \/ exists closed,
           closed_positions closed_goog = closed_positions long_goog ++ [closed]
           /\ realised_pnl closed_goog
              = realised_pnl long_goog + Position.realised_pnl closed).
Proof.
  apply (transact_position_frame (ops := SpecPosition.ops) goog_handler_110
           long_goog closed_goog "SLD" "GOOG" "MSFT" 10 110 5).
  - reflexivity.
  - discriminate.
Defined.

(** *** Liquidation *)

(** X13.  [liquidate_portfolio] keeps what is on the queue and puts behind
    it, in the order of the positions, one order for each position that is
    not flat and none for a flat one: a Sell of the whole quantity of a
    long position, a Buy of the whole quantity of a short one, always
    with a positive quantity. *)
Theorem liquidate_portfolio_offsets (pf : Portfolio) (q : list Event) :
  exists orders,
    liquidate_portfolio pf q = q ++ orders
    /\ Forall2 offsets (List.filter nonflat (positions pf)) orders.
Proof.
  unfold liquidate_portfolio. revert q.
  induction (positions pf) as [|[k pos] ps IH]; intros q; cbn [fold_left].
  - exists []. rewrite app_nil_r. split; [reflexivity | constructor].
  - cbn [snd List.filter]. unfold nonflat at 1. cbn [snd].
    destruct (Qlt_bool 0 (Position.quantity pos)) eqn:E1.
    + apply Qlt_bool_iff in E1.
      destruct (IH (q ++ [OrderEvent (Position.ticker pos) "SLD"
                            (Qabs (Position.quantity pos))]))
        as (orders & -> & Hf).
      assert (Hz : Qeq_bool (Position.quantity pos) 0 = false).
      { destruct (Qeq_bool _ 0) eqn:Ez; [|reflexivity].
        apply Qeq_bool_iff in Ez. rewrite Ez in E1.
        exfalso. exact (Qlt_irrefl _ E1). }
      rewrite Hz. cbn [negb]. eexists. rewrite <- app_assoc.
      split; [reflexivity|]. constructor; [|exact Hf].
      exists "SLD"%string, (Qabs (Position.quantity pos)).
      assert (Ha : Qabs (Position.quantity pos) == Position.quantity pos)
        by (apply Qabs_pos, Qlt_le_weak, E1).
      cbn [snd]. split; [reflexivity|]. split; [rewrite Ha; exact E1|].
      left. auto.
    + destruct (Qlt_bool (Position.quantity pos) 0) eqn:E2.
      * apply Qlt_bool_iff in E2.
        destruct (IH (q ++ [OrderEvent (Position.ticker pos) "BOT"
                              (Qabs (Position.quantity pos))]))
          as (orders & -> & Hf).
        assert (Hz : Qeq_bool (Position.quantity pos) 0 = false).
        { destruct (Qeq_bool _ 0) eqn:Ez; [|reflexivity].
          apply Qeq_bool_iff in Ez. rewrite Ez in E2.
          exfalso. exact (Qlt_irrefl _ E2). }
        rewrite Hz. cbn [negb]. eexists. rewrite <- app_assoc.
        split; [reflexivity|]. constructor; [|exact Hf].
        exists "BOT"%string, (Qabs (Position.quantity pos)).
        assert (Ha : Qabs (Position.quantity pos) == - Position.quantity pos)
          by (apply Qabs_neg, Qlt_le_weak, E2).
        cbn [snd]. split; [reflexivity|]. split; [rewrite Ha; lra|].
        right. auto.
      * assert (Hz : Qeq_bool (Position.quantity pos) 0 = true).
        { apply Qeq_bool_iff. apply Qle_antisym.
          - apply Qnot_lt_le. intros Hlt. apply Qlt_bool_iff in Hlt.
            congruence.
          - apply Qnot_lt_le. intros Hlt. apply Qlt_bool_iff in Hlt.
            congruence. }
        rewrite Hz. cbn [negb]. apply IH.
Qed.

(** *** From an order to the cash *)

Section OrderToCash.

Context {ops : PositionOps}.
Context {H : Type} `{PriceHandler H}.
Context {S : Type} `{Strategy S}.
Context {T : Type} `{Statistics T}.

Lemma transact_position_cash_delta (ph : H) (pf : Portfolio)
    (action ticker : string) (q p c : Q) :
  cur_cash (state_of (transact_position ph pf action ticker q p c))
  == cur_cash pf + cash_delta action q p c.
Proof.
  unfold transact_position, cash_delta.
  match goal with
  | |- context [dict_mem ticker (positions ?s)] =>
      destruct (negb (dict_mem ticker (positions s)))
  end; rewrite ?add_position_cash, ?modify_position_cash;
    destruct (String.eqb action "BOT");
    [|destruct (String.eqb action "SLD")| |destruct (String.eqb action "SLD")];
    cbn [cur_cash]; ring.
Qed.

(** X14.  In a bar session an order whose ticker has a close [p] goes
    through the loop in two iterations: the first puts its fill on the
    queue and leaves the portfolio alone, the second applies the fill, so
    that the cash has moved by -(q*p + c) for a Buy and by q*p - c for a
    Sell, with c the commission of the fill, whether or not the position
    update then raises. *)
Theorem order_moves_cash_in_two_steps (s : TradingSession H S T)
    (ticker action : string) (q p : Q) (timestamp : option Z) :
  events_queue s = [OrderEvent ticker action q] ->
  get_last_timestamp (price_handler s) ticker = Ok timestamp ->
  istick (price_handler s) = false ->
  get_last_close (price_handler s) ticker = Ok (Some p) ->
  let c := Qmin (0.5 * p * q) (Qmax 1.0 (0.005 * q)) in
  let s1 := state_of (loop_body s) in
  let s2 := state_of (loop_body s1) in
  events_queue s1 = [FillEvent timestamp ticker action q "Oslo Boers" p c]
  /\ portfolio s1 = portfolio s
  /\ events_queue s2 = []
  /\ cur_cash (portfolio s2)
     == cur_cash (portfolio s) + cash_delta action q p c.
Proof.
  intros Hq Hts Ht Hc. cbn zeta.
  assert (Hstep : loop_body s
               = Returned (mkSession (strategy s)
                   [FillEvent timestamp ticker action q "Oslo Boers" p
                      (Qmin (0.5 * p * q) (Qmax 1.0 (0.005 * q)))]
                   (price_handler s) (portfolio s) (statistics s)
                   (cur_time s))).
  { unfold loop_body. rewrite Hq. unfold execute_order. rewrite Hts.
    cbn [bind]. rewrite Ht, Hc. reflexivity. }
  rewrite Hstep. cbn [state_of events_queue portfolio].
  split; [reflexivity|]. split; [reflexivity|].
  unfold loop_body. cbn [events_queue price_handler portfolio on_fill].
  pose proof (transact_position_cash_delta (price_handler s) (portfolio s)
                action ticker q p
                (Qmin (0.5 * p * q) (Qmax 1.0 (0.005 * q)))) as Hd.
  destruct (transact_position _ _ _ _ _ _ _) as [pf|x pf];
    cbn [state_of events_queue portfolio] in *; auto.
Qed.

(** X15.  A session without statistics cannot get past an end-of-day
    event: the loop leaves with an exception at that event, with
    [AttributeError] when the revaluation of the portfolio returned.  By
    then the strategy's [on_eod] has run, its events are on the queue,
    the portfolio has been through [update_portfolio], and the session's
    time is the event's time. *)
Theorem end_of_day_needs_statistics (n : nat) (s : TradingSession H S T)
    (time : Z) (rest : list Event) :
  events_queue s = EODEvent time :: rest ->
  statistics s = None ->
  _continue_loop_condition s = true ->
  exists e s' put,
    _run_session (Datatypes.S n) s
    = ([Dispatched (EODEvent time) put], Raised e s')
    /\ cur_time s' = time
    /\ (returned (update_portfolio (price_handler s) (portfolio s)) = true ->
        e = AttributeError)
    /\ (strategy s', put)
       = on_eod (strategy s) (EODEvent time) (portfolio s)
    /\ events_queue s' = rest ++ put
    /\ portfolio s'
       = state_of (update_portfolio (price_handler s) (portfolio s)).
Proof.
  intros Hq Hst Hc. cbn [_run_session]. rewrite Hc.
  unfold loop_body, log_of. rewrite Hq, Hst.
  destruct (on_eod _ _ _) as [st out].
  destruct (update_portfolio _ _) as [pf|x pf];
    do 3 eexists; (split; [reflexivity|]);
    cbn [cur_time returned strategy events_queue portfolio state_of];
    rewrite drop_app_length;
    (split; [reflexivity|]); (split; [|auto]); [reflexivity|discriminate].
Qed.

End OrderToCash.

Lemma order_moves_cash_in_two_steps_witness :
  let s := goog_session [OrderEvent "GOOG" "BOT" 10] in
  let c := Qmin (0.5 * 100 * 10) (Qmax 1.0 (0.005 * 10)) in
  let s1 := state_of (loop_body (ops := SpecPosition.ops) s) in
  let s2 := state_of (loop_body (ops := SpecPosition.ops) s1) in
  events_queue s1 = [FillEvent (Some 1%Z) "GOOG" "BOT" 10 "Oslo Boers" 100 c]
  /\ portfolio s1 = portfolio s
  /\ events_queue s2 = []
  /\ cur_cash (portfolio s2)
     == cur_cash (portfolio s) + cash_delta "BOT" 10 100 c.
Proof.
  apply (order_moves_cash_in_two_steps (ops := SpecPosition.ops)
           (goog_session [OrderEvent "GOOG" "BOT" 10]) "GOOG" "BOT" 10 100
           (Some 1%Z)); reflexivity.
Defined.

Lemma end_of_day_needs_statistics_witness :
  exists e s' put,
    _run_session (ops := SpecPosition.ops) 3 no_statistics_session
    = ([Dispatched (EODEvent 86399) put], Raised e s')
    /\ cur_time s' = 86399%Z
    /\ (returned (update_portfolio (ops := SpecPosition.ops)
                    (price_handler no_statistics_session)
                    (portfolio no_statistics_session)) = true ->
        e = AttributeError)
    /\ (strategy s', put)
       = on_eod (strategy no_statistics_session) (EODEvent 86399)
           (portfolio no_statistics_session)
    /\ events_queue s' = [] ++ put
    /\ portfolio s'
       = state_of (update_portfolio (ops := SpecPosition.ops)
                     (price_handler no_statistics_session)
                     (portfolio no_statistics_session)).
Proof.
  apply (end_of_day_needs_statistics (ops := SpecPosition.ops) 2
           no_statistics_session 86399 []); reflexivity.
Defined.

(** *** The end of a backtest *)

Section BacktestEnd.

Context {ops : PositionOps}.
Context {S : Type} `{Strategy S}.
Context {T : Type} `{Statistics T}.

Lemma loop_body_stops (s s1 : TradingSession OHLCVPriceHandler S T) :
  loop_body s = Returned s1 ->
  (bar_stream (price_handler s)
   = pulled [log_of s s1] ++ bar_stream (price_handler s1))
  /\ (cnt_backtest (price_handler s) = true ->
      cnt_backtest (price_handler s1) = false ->
      events_queue s1 = [] /\ bar_stream (price_handler s1) = []).
Proof.
  intros Hb. destruct (events_queue s) as [|event rest] eqn:Hq.
  - unfold loop_body in Hb. unfold log_of. rewrite Hq in *.
    cbn [stream_next OHLCV_handler] in Hb.
    pose proof (OHLCV_stream_next_cases (price_handler s) []) as Hn.
    unfold OHLCV_stream_next in Hb, Hn.
    destruct (bar_stream (price_handler s)) as [|e r] eqn:Hs.
    + injection Hb as <-. cbn. auto.
    + destruct (event_type e) eqn:Ee;
        try (injection Hb as <-; cbn; split; [reflexivity | congruence]).
      destruct (OHLCV_store_event _ e) as [h'|x h'] eqn:Es; [|discriminate].
      injection Hb as <-. apply OHLCV_store_event_stream in Es as [Es Ec].
      cbn in *. split; [congruence | congruence].
  - destruct (loop_body_dispatch s event rest Hq) as [_ Hp].
    rewrite Hb in Hp. cbn [state_of] in Hp. unfold log_of. rewrite Hq.
    cbn [pulled app]. rewrite Hp. split; [reflexivity | congruence].
Qed.

(** X16.  A backtest that runs to its end leaves nothing behind: when the
    loop stops because the data ran out, the queue is empty, the whole
    stream has been taken, in order, and every event that was queued or
    put on the queue has been dispatched, in that order. *)
Theorem backtest_ends_drained (n : nat)
    (s s' : TradingSession OHLCVPriceHandler S T) (l : list step_log) :
  cnt_backtest (price_handler s) = true ->
  _run_session n s = (l, Returned s') ->
  cnt_backtest (price_handler s') = false ->
  events_queue s' = []
  /\ pulled l = bar_stream (price_handler s)
  /\ dispatched l = events_queue s ++ enqueued l.
Proof.
  intros Hc Hrun Hend.
  assert (Hmain : events_queue s' = []
                  /\ bar_stream (price_handler s)
                     = pulled l ++ bar_stream (price_handler s')
                  /\ bar_stream (price_handler s') = []).
  { revert s l Hc Hrun. induction n as [|n IH]; intros s l Hc Hrun.
    - cbn in Hrun. injection Hrun as <- <-. congruence.
    - rewrite run_unfold in Hrun by exact Hc.
      destruct (loop_body s) as [s1|x s1] eqn:Hb; [|discriminate].
      injection Hrun as <- Ho.
      destruct (loop_body_stops s s1 Hb) as [Hp Hstop].
      destruct (cnt_backtest (price_handler s1)) eqn:Hc1.
      + destruct (IH s1 (fst (_run_session n s1)) Hc1) as (Hq & Hpl & Hs).
        { rewrite <- Ho. destruct (_run_session n s1); reflexivity. }
        split; [exact Hq|]. split; [|exact Hs].
        change (log_of s s1 :: ?x) with ([log_of s s1] ++ x).
        rewrite pulled_app, Hp, Hpl, <- app_assoc. reflexivity.
      + assert (Hn : _run_session n s1 = ([], Returned s1)).
        { destruct n; [reflexivity|]. cbn [_run_session].
          unfold _continue_loop_condition. cbn [continue_backtest OHLCV_handler].
          rewrite Hc1. reflexivity. }
        rewrite Hn in Ho. cbn in Ho. injection Ho as <-.
        destruct (Hstop Hc eq_refl) as [Hq Hs]. rewrite Hn. cbn [fst].
        split; [exact Hq|]. split; [exact Hp | exact Hs]. }
  destruct Hmain as (Hq & Hp & Hs).
  split; [exact Hq|]. split; [rewrite Hp, Hs, app_nil_r; reflexivity|].
  pose proof (run_fifo n s) as Hf. rewrite Hrun in Hf.
  cbn [fst snd state_of] in Hf. rewrite Hq, app_nil_r in Hf. auto.
Qed.

End BacktestEnd.

Lemma backtest_ends_drained_witness :
  exists l s',
    _run_session (ops := SpecPosition.ops) 10 two_bar_session
    = (l, Returned s')
    /\ events_queue s' = []
    /\ pulled l = bar_stream (price_handler two_bar_session)
    /\ dispatched l = events_queue two_bar_session ++ enqueued l.
Proof.
  eexists. eexists.
  assert (Hr : _run_session (ops := SpecPosition.ops) 10 two_bar_session
               = (_, Returned _)) by (vm_compute; reflexivity).
  split; [exact Hr|].
  apply (backtest_ends_drained (ops := SpecPosition.ops) 10 two_bar_session
           _ _ eq_refl Hr).
  reflexivity.
Defined.

(** *** Period labels *)

Lemma string_app_cons (a : Ascii.ascii) (s t : string) :
  String a s +:+ t = String a (s +:+ t).
Proof. reflexivity. Qed.

Lemma string_length_app (s t : string) :
  String.length (s +:+ t) = (String.length s + String.length t)%nat.
Proof.
  induction s as [|a s IH]; [reflexivity|].
  rewrite string_app_cons. cbn [String.length Nat.add]. f_equal. exact IH.
Qed.

Lemma string_app_inv_tail (s1 s2 t : string) :
  s1 +:+ t = s2 +:+ t -> s1 = s2.
Proof.
  revert s2. induction s1 as [|a s1 IH]; intros [|b s2] Heq.
  - reflexivity.
  - apply (f_equal String.length) in Heq.
    rewrite !string_length_app in Heq. cbn in Heq. lia.
  - apply (f_equal String.length) in Heq.
    rewrite !string_length_app in Heq. cbn in Heq. lia.
  - rewrite !string_app_cons in Heq. injection Heq as -> Heq. f_equal. auto.
Qed.

Ltac no_such_prefix H s :=
  repeat (destruct s as [|? s];
          [discriminate H
          | rewrite string_app_cons in H;
            first [injection H as _ H | discriminate H]]).

(** X17.  Periods are told apart by their labels: two periods with the
    same label are the same number of seconds. *)
Theorem readable_period_inj (p1 p2 : Z) :
  _readable_period p1 = _readable_period p2 -> p1 = p2.
Proof.
  assert (Hfall : forall p s, s = pretty p +:+ "sec" ->
            s = "1sec"%string \/ s = "5sec"%string \/ s = "10sec"%string
            \/ s = "15sec"%string \/ s = "30sec"%string
            \/ s = "1min"%string \/ s = "5min"%string \/ s = "10min"%string
            \/ s = "15min"%string \/ s = "30min"%string \/ s = "1hr"%string
            \/ s = "1day"%string \/ s = "1wk"%string ->
            p = 1%Z \/ p = 5%Z \/ p = 10%Z \/ p = 15%Z \/ p = 30%Z).
  { intros p s -> Hs.
    destruct Hs as [Hs|[Hs|[Hs|[Hs|[Hs|Hs]]]]].
    - left. apply (inj pretty), (string_app_inv_tail _ _ "sec"). exact Hs.
    - right; left.
      apply (inj pretty), (string_app_inv_tail _ _ "sec"). exact Hs.
    - right; right; left.
      apply (inj pretty), (string_app_inv_tail _ _ "sec"). exact Hs.
    - right; right; right; left.
      apply (inj pretty), (string_app_inv_tail _ _ "sec"). exact Hs.
    - right; right; right; right.
      apply (inj pretty), (string_app_inv_tail _ _ "sec"). exact Hs.
    - exfalso. generalize dependent (pretty p). intros s Hs.
      destruct Hs as [Hs|[Hs|[Hs|[Hs|[Hs|[Hs|[Hs|Hs]]]]]]];
        no_such_prefix Hs s. }
  unfold _readable_period.
  repeat match goal with
         | |- context [(?p =? ?k)%Z] =>
             let E := fresh "E" in
             destruct (Z.eqb_spec p k) as [E|E]; [subst p|]
         end;
    intros Hl; try reflexivity; try discriminate Hl;
    try (apply string_app_inv_tail, (inj pretty) in Hl; exact Hl);
    exfalso;
    first [ apply Hfall in Hl | symmetry in Hl; apply Hfall in Hl ];
    try tauto; try lia.
  all: repeat match goal with
              | |- _ \/ _ => first [left; reflexivity | right]
              end; try reflexivity.
Qed.

Lemma readable_period_inj_witness : 60%Z = 60%Z.
Proof. apply (readable_period_inj 60 60). reflexivity. Defined.
